(** * tts-api: the conversion and deletion workflows of the TTS backend

    A shallow embedding of [index.js] (the Express routes), [firebase.js]
    (the Firestore and Cloud Storage adapters) and [tts.js] (the speech
    synthesis adapter), followed by the properties the specification states
    about them.

    Conventions.
    - A JavaScript string is the list of its UTF-16 code units, so [length]
      is the [.length] of the source and a "character" is a code unit.
    - [null] and [undefined] are [None].
    - A Cloud Storage or Firestore call is a step on an explicit [World];
      a call that rejects leaves the world as it stood at that point and
      the error propagates: nothing is rolled back. *)

From Stdlib Require Import NArith String Ascii Strings.Byte DecimalString.
From Stdlib Require Import DecimalN.
From stdpp Require Import gmap list fin_maps.

(** ** JavaScript strings *)

Abbreviation jsstring := (list N).

(** A source literal (ASCII only in this code base) as code units. *)
Fixpoint lit (s : string) : jsstring :=
  match s with
  | EmptyString => []
  | String a s' => N_of_ascii a :: lit s'
  end.

Arguments lit : simpl never.

(** [String(n)] for a non-negative integer below 2^53: plain decimal. *)
Definition numberToString (n : N) : jsstring :=
  lit (NilEmpty.string_of_uint (N.to_uint n)).

(** Truthiness of a string value: every string but the empty one. *)
Definition truthy (s : jsstring) : bool :=
  match s with [] => false | _ :: _ => true end.

(** Truthiness of a possibly [null]/[undefined] string. *)
Definition truthyOpt (o : option jsstring) : bool :=
  match o with Some s => truthy s | None => false end.

(** A template-literal hole holding a possibly undefined string. *)
Definition interpolate (o : option jsstring) : jsstring :=
  match o with Some s => s | None => lit "undefined" end.

(** ECMAScript WhiteSpace and LineTerminator code points, the ones
    [String.prototype.trim] strips. All of them lie in the BMP. *)
Definition isWhiteSpace (c : N) : bool :=
  ((c =? 0x09) || (c =? 0x0A) || (c =? 0x0B) || (c =? 0x0C) || (c =? 0x0D)
  || (c =? 0x20) || (c =? 0xA0) || (c =? 0x1680)
  || ((0x2000 <=? c) && (c <=? 0x200A))
  || (c =? 0x2028) || (c =? 0x2029) || (c =? 0x202F) || (c =? 0x205F)
  || (c =? 0x3000) || (c =? 0xFEFF))%N.

Fixpoint trimStart (s : jsstring) : jsstring :=
  match s with
  | [] => []
  | c :: s' => if isWhiteSpace c then trimStart s' else s
  end.

Definition trimEnd (s : jsstring) : jsstring := rev (trimStart (rev s)).

(** [s.trim()] *)
Definition trim (s : jsstring) : jsstring := trimEnd (trimStart s).

(** [s.split(sep)] for a separator of one code unit, the only kind the
    code uses (['/'] and ['-']). *)
Fixpoint split (sep : N) (s : jsstring) : list jsstring :=
  match s with
  | [] => [[]]
  | c :: s' =>
      if (c =? sep)%N then [] :: split sep s'
      else match split sep s' with
           | seg :: segs => (c :: seg) :: segs
           | [] => [[c]]
           end
  end.

(** [a.pop()]: the last element, [undefined] on an empty array. *)
Fixpoint pop {A : Type} (a : list A) : option A :=
  match a with
  | [] => None
  | [x] => Some x
  | _ :: a' => pop a'
  end.

(** [a.join(sep)] *)
Fixpoint join (sep : jsstring) (a : list jsstring) : jsstring :=
  match a with
  | [] => []
  | [x] => x
  | x :: a' => x ++ sep ++ join sep a'
  end.

(** [a.slice(0, n)] *)
Definition slice0 {A : Type} (n : nat) (a : list A) : list A := take n a.

(** [s.substring(i, j)] for [i <= j] *)
Definition substring (i j : nat) (s : jsstring) : jsstring :=
  take (j - i) (drop i s).

(** [s.length] *)
Definition jsLength (s : jsstring) : N := N.of_nat (length s).

(** [a === b] on strings *)
Fixpoint strictEq (a b : jsstring) : bool :=
  match a, b with
  | [], [] => true
  | x :: a', y :: b' => (x =? y)%N && strictEq a' b'
  | _, _ => false
  end.

(** [a.includes(x)] on an array of strings *)
Definition includes (a : list jsstring) (x : jsstring) : bool :=
  existsb (fun y => strictEq y x) a.

Definition slash : N := 0x2F%N.
Definition hyphen : N := 0x2D%N.


(** ** Values the routes exchange *)

Abbreviation Buffer := (list byte).

Inductive JsError : Type :=
  | Error (message : jsstring)
  | MulterError (code message : jsstring)
  | ReferenceError (message : jsstring).

(** [error.message] *)
Definition message (e : JsError) : jsstring :=
  match e with
  | Error m => m
  | MulterError _ m => m
  | ReferenceError m => m
  end.

(** The three values [inputType] takes: ['pdf'], ['txt'], ['text']. *)
Inductive InputType : Type := Pdf | Txt | Text.

Definition inputTypeString (t : InputType) : jsstring :=
  match t with
  | Pdf => lit "pdf"
  | Txt => lit "txt"
  | Text => lit "text"
  end.

(** A timestamp property: the [FieldValue.serverTimestamp()] sentinel
    before the write, a time after it. *)
Inductive Timestamp : Type := ServerTimestamp | At (ms : N).

(** The conversion object: [conversionData] of the /convert handler, with
    the two properties [saveConversion] adds ([id], [createdAt]); a
    property that is absent is [None]. *)
Record Conversion : Type := mkConversion {
  text : jsstring;
  inputType : InputType;
  originalFileName : option jsstring;
  originalFileUrl : option jsstring;
  audioUrl : jsstring;
  status : jsstring;
  completedAt : N;
  textLength : N;
  id_ : option jsstring;
  createdAt : option Timestamp
}.

(** An object of the bucket. *)
Record StoredObject : Type := mkStoredObject {
  content : Buffer;
  contentType : jsstring;
  public : bool
}.

(** The request a Text-to-Speech call carries ([tts.js], [request]). *)
Record SynthesisRequest : Type := mkSynthesisRequest {
  input_text : jsstring;
  voice_name : jsstring;
  voice_languageCode : jsstring;
  audioEncoding : jsstring;
  effectsProfileId : list jsstring;
  pitch : N;
  speakingRate : N
}.

(** JSON bodies the routes send. *)
Inductive Json : Type :=
  | ErrorJson (error : jsstring) (message : option jsstring)
  | ConvertedJson (success : bool) (conversionId audioUrl : jsstring)
      (textLength : N) (inputType : InputType) (message : jsstring)
  | ConversionsJson (success : bool) (count : N)
      (conversions : list Conversion)
  | DeletedJson (success : bool) (message deletedConversionId : jsstring).

Record Response : Type := mkResponse {
  statusCode : N;
  json : Json
}.

(** ** The world outside the process *)

(** Firestore documents under [users/{userId}/conversions/{id}] and the
    objects of the default bucket. [tick] counts the reads of the
    environment made so far (clock, random source, remote calls). *)
Record World : Type := mkWorld {
  firestore : gmap jsstring (gmap jsstring Conversion);
  bucket : gmap jsstring StoredObject;
  tick : nat
}.

(** What the process cannot decide: library functions and, per read of the
    environment, the value or the failure that read meets.
    - [pdf]: pdf-parse, the [text] of the parsed document or a rejection;
    - [toStringUtf8]: [buffer.toString('utf-8')];
    - [dateNow]: [Date.now()] and [new Date()];
    - [mathRandom36]: [Math.random().toString(36)];
    - [autoId]: the id of a [doc()] reference created without argument;
    - [serverTimestamp]: what [FieldValue.serverTimestamp()] resolves to;
    - [firestoreFault], [storageFault]: the error a Firestore or Cloud
      Storage call rejects with at that read, if it does;
    - [synthesizeSpeech]: the audio of a Text-to-Speech call or its error. *)
Record Env : Type := mkEnv {
  pdf : Buffer -> JsError + jsstring;
  toStringUtf8 : Buffer -> jsstring;
  dateNow : nat -> N;
  mathRandom36 : nat -> jsstring;
  autoId : nat -> jsstring;
  serverTimestamp : nat -> N;
  firestoreFault : nat -> option JsError;
  storageFault : nat -> option JsError;
  synthesizeSpeech : nat -> SynthesisRequest -> JsError + Buffer
}.

(** ** Computations that may throw *)

(** An [async] function: from a world to a value or a thrown error, and
    the world it leaves. State survives a throw. *)
Definition M (A : Type) : Type := World -> (JsError + A) * World.

Definition ret {A : Type} (a : A) : M A := fun w => (inr a, w).

Definition throw {A : Type} (e : JsError) : M A := fun w => (inl e, w).

Definition bind {A B : Type} (m : M A) (k : A -> M B) : M B :=
  fun w =>
    match m w with
    | (inr a, w') => k a w'
    | (inl e, w') => (inl e, w')
    end.

Notation "'let*' x ':=' m 'in' k" := (bind m (fun x => k))
  (at level 10, x pattern, m at level 100, k at level 200).

(** [try { m } catch (e) { h e }] *)
Definition tryCatch {A : Type} (m : M A) (h : JsError -> M A) : M A :=
  fun w =>
    match m w with
    | (inl e, w') => h e w'
    | r => r
    end.

(** [for (const x of xs) { body x }] *)
Fixpoint forOf {A : Type} (xs : list A) (body : A -> M unit) : M unit :=
  match xs with
  | [] => ret tt
  | x :: xs' => let* _ := body x in forOf xs' body
  end.

Definition nextTick : M nat :=
  fun w => (inr (tick w),
            {| firestore := firestore w; bucket := bucket w;
               tick := S (tick w) |}).

Definition setFirestore (f : gmap jsstring (gmap jsstring Conversion))
  : M unit :=
  fun w => (inr tt, {| firestore := f; bucket := bucket w; tick := tick w |}).

Definition setBucket (b : gmap jsstring StoredObject) : M unit :=
  fun w => (inr tt, {| firestore := firestore w; bucket := b; tick := tick w |}).

Definition getWorld : M World := fun w => (inr w, w).

(** The collection [users/{userId}/conversions]. *)
Definition conversionsOf (w : World) (userId : jsstring)
  : gmap jsstring Conversion :=
  default ∅ (firestore w !! userId).

(** ** firebase.js, tts.js and index.js over an environment *)

Section Backend.

Variable E : Env.

(** *** Reads of the environment *)

Definition DateNow : M N :=
  let* t := nextTick in ret (dateNow E t).

(** [Math.random().toString(36)] *)
Definition MathRandomToString36 : M jsstring :=
  let* t := nextTick in ret (mathRandom36 E t).

(** One round trip to Firestore: it rejects, or it goes through. *)
Definition firestoreCall : M unit :=
  let* t := nextTick in
  match firestoreFault E t with
  | Some e => throw e
  | None => ret tt
  end.

(** One round trip to Cloud Storage. *)
Definition storageCall : M unit :=
  let* t := nextTick in
  match storageFault E t with
  | Some e => throw e
  | None => ret tt
  end.

(** *** The Firestore client *)

(** [docRef.set(data)]: writes (or overwrites) the document; the server
    resolves a [serverTimestamp()] sentinel to its own time. *)
Definition docSet (userId docId : jsstring) (data : Conversion) : M unit :=
  let* _ := firestoreCall in
  let* t := nextTick in
  let* w := getWorld in
  let stored :=
    {| text := text data; inputType := inputType data;
       originalFileName := originalFileName data;
       originalFileUrl := originalFileUrl data;
       audioUrl := audioUrl data; status := status data;
       completedAt := completedAt data; textLength := textLength data;
       id_ := id_ data;
       createdAt := match createdAt data with
                    | Some ServerTimestamp => Some (At (serverTimestamp E t))
                    | stamp => stamp
                    end |} in
  setFirestore
    (<[userId := <[docId := stored]> (conversionsOf w userId)]> (firestore w)).

(** [collectionRef.get()]: the documents of the collection, each with its
    document id. *)
Definition collectionGet (userId : jsstring)
  : M (list (jsstring * Conversion)) :=
  let* _ := firestoreCall in
  let* w := getWorld in
  ret (map_to_list (conversionsOf w userId)).

(** [docRef.delete()] without precondition: removes the document; a
    document that does not exist is no error for Firestore. *)
Definition docDelete (userId docId : jsstring) : M unit :=
  let* _ := firestoreCall in
  let* w := getWorld in
  setFirestore
    (<[userId := delete docId (conversionsOf w userId)]> (firestore w)).

(** *** The Cloud Storage client *)

(** [storage.bucket().name], the [storageBucket] of [initializeApp]. *)
Definition bucketName : jsstring :=
  lit "bustling-bot-464601-a9.firebasestorage.app".

(** [file.save(buffer, {metadata: {contentType}})]: creates or replaces
    the object; a new object is private. *)
Definition fileSave (fileName : jsstring) (fileBuffer : Buffer)
    (ct : jsstring) : M unit :=
  let* _ := storageCall in
  let* w := getWorld in
  setBucket
    (<[fileName := {| content := fileBuffer; contentType := ct;
                      public := false |}]> (bucket w)).

Definition noSuchObject (fileName : jsstring) : JsError :=
  Error (lit "No such object: " ++ bucketName ++ lit "/" ++ fileName).

(** [file.makePublic()] *)
Definition fileMakePublic (fileName : jsstring) : M unit :=
  let* _ := storageCall in
  let* w := getWorld in
  match bucket w !! fileName with
  | None => throw (noSuchObject fileName)
  | Some o =>
      setBucket
        (<[fileName := {| content := content o;
                          contentType := contentType o;
                          public := true |}]> (bucket w))
  end.

(** [file.delete()]: rejects when the object is not there. *)
Definition fileDelete (fileName : jsstring) : M unit :=
  let* _ := storageCall in
  let* w := getWorld in
  match bucket w !! fileName with
  | None => throw (noSuchObject fileName)
  | Some _ => setBucket (delete fileName (bucket w))
  end.

(** *** firebase.js

    Each function wraps its body in [try { ... } catch (error) {
    console.error(...); throw error; }]: the error is logged and thrown
    again unchanged, which [rethrow] spells out. *)

Definition rethrow {A : Type} (m : M A) : M A :=
  tryCatch m (fun error => throw error).

Definition saveConversion (userId : jsstring) (conversionData : Conversion)
  : M jsstring :=
  rethrow (
    let* t := nextTick in
    let docRefId := autoId E t in
    let conversionWithId :=
      {| text := text conversionData; inputType := inputType conversionData;
         originalFileName := originalFileName conversionData;
         originalFileUrl := originalFileUrl conversionData;
         audioUrl := audioUrl conversionData;
         status := status conversionData;
         completedAt := completedAt conversionData;
         textLength := textLength conversionData;
         id_ := Some docRefId;
         createdAt := Some ServerTimestamp |} in
    let* _ := docSet userId docRefId conversionWithId in
    ret docRefId).

(** [{ id: doc.id, ...doc.data() }]: the spread comes last, so an [id]
    property of the data wins over the document id. *)
Definition withDocId (doc : jsstring * Conversion) : Conversion :=
  let d := snd doc in
  {| text := text d; inputType := inputType d;
     originalFileName := originalFileName d;
     originalFileUrl := originalFileUrl d;
     audioUrl := audioUrl d; status := status d;
     completedAt := completedAt d; textLength := textLength d;
     id_ := match id_ d with Some i => Some i | None => Some (fst doc) end;
     createdAt := createdAt d |}.

Definition getConversions (userId : jsstring) : M (list Conversion) :=
  rethrow (
    let* querySnapshot := collectionGet userId in
    ret (map withDocId querySnapshot)).

Definition deleteConversion (userId conversionId : jsstring) : M jsstring :=
  rethrow (
    let* _ := docDelete userId conversionId in
    ret conversionId).

(** The URL [uploadFile] returns for a logical name. *)
Definition publicUrlOf (fileName : jsstring) : jsstring :=
  lit "https://storage.googleapis.com/" ++ bucketName ++ lit "/" ++ fileName.

Definition uploadFile (fileName : jsstring) (fileBuffer : Buffer)
    (ct : jsstring) : M jsstring :=
  rethrow (
    let* _ := fileSave fileName fileBuffer ct in
    let* _ := fileMakePublic fileName in
    let publicUrl := publicUrlOf fileName in
    ret publicUrl).

Definition deleteFile (fileName : jsstring) : M bool :=
  rethrow (
    let* _ := fileDelete fileName in
    ret true).

(** *** tts.js

    The functions take the voice as a parameter that defaults to
    ["en-US-Wavenet-D"]; index.js never passes one. *)

Definition defaultVoice : jsstring := lit "en-US-Wavenet-D".

Definition convertTextToAudio (text fileName voiceName : jsstring)
  : M Buffer :=
  rethrow (
    let languageCode := join (lit "-") (slice0 2 (split hyphen voiceName)) in
    let request :=
      {| input_text := text;
         voice_name := voiceName;
         voice_languageCode := languageCode;
         audioEncoding := lit "MP3";
         effectsProfileId := [lit "small-bluetooth-speaker-class-device"];
         pitch := 0%N;
         speakingRate := 1%N |} in
    let* t := nextTick in
    match synthesizeSpeech E t request with
    | inl e => throw e
    | inr audioContent => ret audioContent
    end).

Definition saveAudioFile (audioBuffer : Buffer) (fileName : jsstring)
  : M jsstring :=
  rethrow (
    let* audioUrl := uploadFile fileName audioBuffer (lit "audio/mpeg") in
    ret audioUrl).

(** The object [convertAndSaveAudio] resolves to. *)
Record AudioResult : Type := mkAudioResult {
  ar_success : bool;
  ar_audioUrl : jsstring;
  ar_fileName : jsstring;
  ar_audioSize : N;
  ar_voiceUsed : jsstring
}.

Definition convertAndSaveAudio (text fileName voiceName : jsstring)
  : M AudioResult :=
  rethrow (
    let* audioBuffer := convertTextToAudio text fileName voiceName in
    let* audioUrl := saveAudioFile audioBuffer fileName in
    ret {| ar_success := true;
           ar_audioUrl := audioUrl;
           ar_fileName := fileName;
           ar_audioSize := N.of_nat (length audioBuffer);
           ar_voiceUsed := voiceName |}).

(** *** index.js: the upload layer *)

(** The [file] part of a multipart request, as multer hands it over. *)
Record FilePart : Type := mkFilePart {
  mimetype : jsstring;
  originalname : jsstring;
  buffer : Buffer
}.

(** A POST /convert request: the form fields [userId] and [text] and the
    [file] part, each of them possibly absent. *)
Record ConvertRequest : Type := mkConvertRequest {
  body_userId : option jsstring;
  body_text : option jsstring;
  file : option FilePart
}.

Definition allowedTypes : list jsstring :=
  [lit "application/pdf"; lit "text/plain"].

(** [fileFilter]: [cb(null, true)] or [cb(new Error(...), false)]. *)
Definition fileFilter (f : FilePart) : JsError + bool :=
  if includes allowedTypes (mimetype f) then inr true
  else inl (Error (lit "Only PDF and TXT files are allowed")).

(** [limits.fileSize] *)
Definition fileSize : N := (10 * 1024 * 1024)%N.

(** [upload.single('file')]: the filter runs when the part starts, the
    size limit trips while its bytes are read; either error goes to the
    error-handling middleware and the route handler is not called. *)
Definition uploadSingle (req : ConvertRequest) : JsError + ConvertRequest :=
  match file req with
  | None => inr req
  | Some f =>
      match fileFilter f with
      | inl e => inl e
      | inr false =>
          inr {| body_userId := body_userId req; body_text := body_text req;
                 file := None |}
      | inr true =>
          if (fileSize <? N.of_nat (length (buffer f)))%N
          then inl (MulterError (lit "LIMIT_FILE_SIZE") (lit "File too large"))
          else inr req
      end
  end.

Definition statusJson (code : N) (j : Json) : Response :=
  {| statusCode := code; json := j |}.

(** [res.json(j)] with no status set *)
Definition resJson (j : Json) : Response := statusJson 200%N j.

(** The error-handling middleware. *)
Definition errorMiddleware (error : JsError) : Response :=
  let internal :=
    statusJson 500%N
      (ErrorJson (lit "Internal server error") (Some (message error))) in
  match error with
  | MulterError code _ =>
      if strictEq code (lit "LIMIT_FILE_SIZE")
      then statusJson 400%N
             (ErrorJson (lit "File too large. Maximum size is 10MB.") None)
      else internal
  | _ => internal
  end.

(** *** index.js: helpers *)

Definition extractTextFromBuffer (buf : Buffer) (mime : jsstring)
  : M jsstring :=
  rethrow (
    if strictEq mime (lit "application/pdf") then
      match pdf E buf with
      | inl e => throw e
      | inr data_text => ret data_text
      end
    else if strictEq mime (lit "text/plain") then
      ret (toStringUtf8 E buf)
    else throw (Error (lit "Unsupported file type"))).

Definition generateFileName (userId type : jsstring) : M jsstring :=
  let* timestamp := DateNow in
  let* r := MathRandomToString36 in
  let random := substring 2 8 r in
  ret (type ++ lit "_" ++ userId ++ lit "_" ++ numberToString timestamp
         ++ lit "_" ++ random).

(** *** index.js: POST /convert *)

(** What the block [if (req.file) ... else if (req.body.text) ... else ...]
    leaves behind: a response already sent, or the four variables set. *)
Inductive Acquired : Type :=
  | Responded (r : Response)
  | Content (textContent : jsstring) (inputType : InputType)
      (originalFileName originalFileUrl : option jsstring).

Definition acquireText (userId : jsstring) (req : ConvertRequest)
  : M Acquired :=
  match file req with
  | Some f =>
      let buf := buffer f in
      let originalFileName := originalname f in
      let inputType :=
        if strictEq (mimetype f) (lit "application/pdf") then Pdf else Txt in
      let* textContent := extractTextFromBuffer buf (mimetype f) in
      let* name := generateFileName userId (lit "original") in
      let storageFileName :=
        lit "uploads/" ++ name ++ lit "." ++ inputTypeString inputType in
      let* originalFileUrl := uploadFile storageFileName buf (mimetype f) in
      ret (Content textContent inputType
             (Some originalFileName) (Some originalFileUrl))
  | None =>
      if truthyOpt (body_text req) then
        ret (Content (default [] (body_text req)) Text None None)
      else
        ret (Responded
               (statusJson 400%N
                  (ErrorJson (lit "No text or file provided") None)))
  end.

(** From [// Validate text content] to the response. *)
Definition validateAndConvert (userId textContent : jsstring)
    (inputType : InputType) (originalFileName originalFileUrl : option jsstring)
  : M Response :=
  if negb (truthy (trim textContent)) then
    ret (statusJson 400%N (ErrorJson (lit "Empty text content") None))
  else if (5000 <? jsLength textContent)%N then
    ret (statusJson 400%N
           (ErrorJson (lit "Text too long. Maximum 5000 characters allowed.")
              None))
  else
    let* name := generateFileName userId (lit "audio") in
    let audioFileName := lit "audio/" ++ name ++ lit ".mp3" in
    let* audioResult :=
      convertAndSaveAudio textContent audioFileName defaultVoice in
    let* now := DateNow in
    let conversionData :=
      {| text := textContent;
         inputType := inputType;
         originalFileName := originalFileName;
         originalFileUrl := originalFileUrl;
         audioUrl := ar_audioUrl audioResult;
         status := lit "completed";
         completedAt := now;
         textLength := jsLength textContent;
         id_ := None;
         createdAt := None |} in
    let* conversionId := saveConversion userId conversionData in
    ret (resJson
           (ConvertedJson true conversionId (ar_audioUrl audioResult)
              (jsLength textContent) inputType
              (lit "Text successfully converted to audio"))).

(** The [try] block of the handler. *)
Definition convertTry (req : ConvertRequest) : M Response :=
  if negb (truthyOpt (body_userId req)) then
    ret (statusJson 400%N (ErrorJson (lit "User ID is required") None))
  else
    let userId := default [] (body_userId req) in
    let* a := acquireText userId req in
    match a with
    | Responded r => ret r
    | Content textContent inputType originalFileName originalFileUrl =>
        validateAndConvert userId textContent inputType
          originalFileName originalFileUrl
    end.

(** The [catch] block of the handler. *)
Definition convertCatch (error : JsError) : Response :=
  statusJson 500%N (ErrorJson (lit "Conversion failed") (Some (message error))).

(** [try { body } catch (error) { res.status(..).json(..) }] where every
    path of [body] sends a response: the response sent. *)
Definition respond (body : M Response) (handler : JsError -> Response)
  : World -> Response * World :=
  fun w =>
    match body w with
    | (inr r, w') => (r, w')
    | (inl error, w') => (handler error, w')
    end.

(** How a handler's body ends. *)
Inductive Completion : Type := Returned | Threw (e : JsError).

(** A run of the /convert handler: the response it sent, whether the body
    of [if (tempFilePath) { ... }] was entered, and how the handler ended. *)
Record Handled : Type := mkHandled {
  sent : Response;
  cleanupEntered : bool;
  completion : Completion
}.

(** The identifiers bound where the [finally] block is evaluated: the
    handler's parameters and the module-level declarations of index.js.
    The [const] and [let] of the [try] block are not in scope there, and
    nothing in the code base assigns a global. *)
Definition convertFinallyScope : list string :=
  ["req"; "res"; "express"; "multer"; "cors"; "fs"; "path"; "pdf";
   "saveConversion"; "getConversions"; "deleteConversion"; "uploadFile";
   "deleteFile"; "convertAndSaveAudio"; "app"; "PORT"; "upload";
   "extractTextFromBuffer"; "generateFileName"]%string.

(** Reading an identifier: a binding in scope, or a ReferenceError. *)
Definition resolveIdentifier (scope : list string) (x : string)
  : JsError + unit :=
  if existsb (String.eqb x) scope then inr tt
  else inl (ReferenceError (lit x ++ lit " is not defined")).

(** The [finally] block: [if (tempFilePath) { try { } catch ... }]. Every
    binding of the scope holds a function, an object or a port, all truthy. *)
Definition convertFinally : bool * Completion :=
  match resolveIdentifier convertFinallyScope "tempFilePath" with
  | inl e => (false, Threw e)
  | inr _ => (true, Returned)
  end.

Definition convertHandler (req : ConvertRequest) : World -> Handled * World :=
  fun w =>
    let '(r, w') := respond (convertTry req) convertCatch w in
    ({| sent := r;
        cleanupEntered := fst convertFinally;
        completion := snd convertFinally |}, w').

(** The route: [app.post('/convert', upload.single('file'), handler)] with
    the error-handling middleware behind it. *)
Definition postConvert (req : ConvertRequest) : World -> Handled * World :=
  fun w =>
    match uploadSingle req with
    | inl error =>
        ({| sent := errorMiddleware error;
            cleanupEntered := false;
            completion := Returned |}, w)
    | inr req' => convertHandler req' w
    end.

(** *** index.js: GET and DELETE /conversions *)

Definition getConversionsRoute (userId : jsstring)
  : World -> Response * World :=
  respond
    (if negb (truthy userId) then
       ret (statusJson 400%N (ErrorJson (lit "User ID is required") None))
     else
       let* conversions := getConversions userId in
       ret (resJson
              (ConversionsJson true (N.of_nat (length conversions))
                 conversions)))
    (fun error =>
       statusJson 500%N
         (ErrorJson (lit "Failed to retrieve conversions")
            (Some (message error)))).

(** [c.id === conversionId] *)
Definition hasId (conversionId : jsstring) (c : Conversion) : bool :=
  match id_ c with
  | Some i => strictEq i conversionId
  | None => false
  end.

(** The array [filesToDelete] the handler builds from a conversion. *)
Definition filesToDelete (conversion : Conversion) : list jsstring :=
  (if truthyOpt (originalFileUrl conversion) then
     let originalFileName :=
       pop (split slash (default [] (originalFileUrl conversion))) in
     [lit "uploads/" ++ interpolate originalFileName]
   else [])
  ++
  (if truthy (audioUrl conversion) then
     let audioFileName := pop (split slash (audioUrl conversion)) in
     [lit "audio/" ++ interpolate audioFileName]
   else []).

(** The loop over [filesToDelete]: a failed deletion is logged and the
    loop goes on. *)
Definition deleteFiles (files : list jsstring) : M unit :=
  forOf files (fun fileName =>
    tryCatch (let* _ := deleteFile fileName in ret tt)
             (fun fileError => ret tt)).

Definition deleteTry (userId conversionId : jsstring) : M Response :=
  if negb (truthy userId) || negb (truthy conversionId) then
    ret (statusJson 400%N
           (ErrorJson (lit "User ID and Conversion ID are required") None))
  else
    let* conversions := getConversions userId in
    match find (hasId conversionId) conversions with
    | None =>
        ret (statusJson 404%N (ErrorJson (lit "Conversion not found") None))
    | Some conversion =>
        let* _ := deleteFiles (filesToDelete conversion) in
        let* _ := deleteConversion userId conversionId in
        ret (resJson
               (DeletedJson true
                  (lit "Conversion and associated files deleted successfully")
                  conversionId))
    end.

Definition deleteCatch (error : JsError) : Response :=
  statusJson 500%N
    (ErrorJson (lit "Failed to delete conversion") (Some (message error))).

Definition deleteConversionRoute (userId conversionId : jsstring)
  : World -> Response * World :=
  respond (deleteTry userId conversionId) deleteCatch.

End Backend.


(** ** Vocabulary of the statements *)

(** The world after one read of the environment. *)
Definition ticked (w : World) : World :=
  {| firestore := firestore w; bucket := bucket w; tick := S (tick w) |}.

(** No Firestore call fails. *)
Definition firestoreUp (E : Env) : Prop :=
  forall n, firestoreFault E n = None.

(** No Cloud Storage call fails for a reason of its own (a missing object
    still makes [delete] fail). *)
Definition storageUp (E : Env) : Prop :=
  forall n, storageFault E n = None.

(** Every Text-to-Speech call returns audio. *)
Definition synthesisUp (E : Env) : Prop :=
  forall n r, exists audio, synthesizeSpeech E n r = inr audio.

(** No record listed for [userId] carries the id [conversionId]. *)
Definition noRecord (w : World) (userId conversionId : jsstring) : Prop :=
  forall k d, conversionsOf w userId !! k = Some d ->
              id_ (withDocId (k, d)) <> Some conversionId.

(** A record listed for [userId] carries the id [conversionId]. *)
Definition hasRecord (w : World) (userId conversionId : jsstring) : Prop :=
  exists k d, conversionsOf w userId !! k = Some d /\
              id_ (withDocId (k, d)) = Some conversionId.

(** Every record is listed under the id of its document: what
    [saveConversion] writes, and the invariant of section 3 of the
    specification ([userId] and [id] address one record). *)
Definition storeWf (w : World) : Prop :=
  forall u k d, conversionsOf w u !! k = Some d ->
                id_ (withDocId (k, d)) = Some k.

(** The text is made of white space only. *)
Definition allWhiteSpace (s : jsstring) : bool := forallb isWhiteSpace s.

Definition noContentResponse : Response :=
  statusJson 400%N (ErrorJson (lit "No text or file provided") None).

Definition emptyContentResponse : Response :=
  statusJson 400%N (ErrorJson (lit "Empty text content") None).

Definition tooLongResponse : Response :=
  statusJson 400%N
    (ErrorJson (lit "Text too long. Maximum 5000 characters allowed.") None).

Definition notFoundResponse : Response :=
  statusJson 404%N (ErrorJson (lit "Conversion not found") None).

Definition deletedResponse (conversionId : jsstring) : Response :=
  resJson
    (DeletedJson true
       (lit "Conversion and associated files deleted successfully")
       conversionId).

(** The request [convertTextToAudio] sends for a text and a voice. *)
Definition requestFor (text voiceName : jsstring) : SynthesisRequest :=
  {| input_text := text;
     voice_name := voiceName;
     voice_languageCode := join (lit "-") (slice0 2 (split hyphen voiceName));
     audioEncoding := lit "MP3";
     effectsProfileId := [lit "small-bluetooth-speaker-class-device"];
     pitch := 0%N;
     speakingRate := 1%N |}.

(** The document [saveConversion] writes under the id [docId] at server
    time [ms]. *)
Definition savedAs (conversionData : Conversion) (docId : jsstring) (ms : N)
  : Conversion :=
  {| text := text conversionData; inputType := inputType conversionData;
     originalFileName := originalFileName conversionData;
     originalFileUrl := originalFileUrl conversionData;
     audioUrl := audioUrl conversionData;
     status := status conversionData;
     completedAt := completedAt conversionData;
     textLength := textLength conversionData;
     id_ := Some docId;
     createdAt := Some (At ms) |}.

(** ** Sample environments and worlds *)

(** Nothing fails; pdf-parse and the decoder return fixed texts. *)
Definition calmEnv : Env :=
  {| pdf := fun _ => inr (lit "parsed");
     toStringUtf8 := fun _ => lit "decoded";
     dateNow := fun n => (1700000000000 + N.of_nat n)%N;
     mathRandom36 := fun _ => lit "0.4fzyo82mvyr";
     autoId := fun n => lit "doc" ++ numberToString (N.of_nat n);
     serverTimestamp := fun n => (1700000000500 + N.of_nat n)%N;
     firestoreFault := fun _ => None;
     storageFault := fun _ => None;
     synthesizeSpeech := fun _ _ => inr [x49; x44; x33] |}.

(** Firestore answers, every Cloud Storage call is refused. *)
Definition storageDownEnv : Env :=
  {| pdf := pdf calmEnv;
     toStringUtf8 := toStringUtf8 calmEnv;
     dateNow := dateNow calmEnv;
     mathRandom36 := mathRandom36 calmEnv;
     autoId := autoId calmEnv;
     serverTimestamp := serverTimestamp calmEnv;
     firestoreFault := fun _ => None;
     storageFault := fun _ => Some (Error (lit "storage unavailable"));
     synthesizeSpeech := synthesizeSpeech calmEnv |}.

Definition emptyWorld : World :=
  {| firestore := ∅; bucket := ∅; tick := 0 |}.

(** A record of user [u1] as [saveConversion] writes it, for an uploaded
    text file. *)
Definition sampleRecord : Conversion :=
  {| text := lit "hello";
     inputType := Txt;
     originalFileName := Some (lit "note.txt");
     originalFileUrl :=
       Some (publicUrlOf (lit "uploads/original_u1_1700000000000_4fzyo8.txt"));
     audioUrl := publicUrlOf (lit "audio/audio_u1_1700000000002_4fzyo8.mp3");
     status := lit "completed";
     completedAt := 1700000000007%N;
     textLength := 5%N;
     id_ := Some (lit "c1");
     createdAt := Some (At 1700000000509%N) |}.

(** The record is there, its two artifacts are already gone from the
    bucket. *)
Definition orphanedRecordWorld : World :=
  {| firestore := {[ lit "u1" := {[ lit "c1" := sampleRecord ]} ]};
     bucket := ∅;
     tick := 0 |}.

(** The decoder yields a blank text for every upload. *)
Definition blankFileEnv : Env :=
  {| pdf := pdf calmEnv;
     toStringUtf8 := fun _ => [0x20; 0x0A; 0x09; 0x3000]%N;
     dateNow := dateNow calmEnv;
     mathRandom36 := mathRandom36 calmEnv;
     autoId := autoId calmEnv;
     serverTimestamp := serverTimestamp calmEnv;
     firestoreFault := fun _ => None;
     storageFault := fun _ => None;
     synthesizeSpeech := synthesizeSpeech calmEnv |}.

(** An upload of a plain-text file by user [u1]. *)
Definition textFileRequest : ConvertRequest :=
  {| body_userId := Some (lit "u1");
     body_text := None;
     file := Some {| mimetype := lit "text/plain";
                     originalname := lit "note.txt";
                     buffer := [x20; x0a] |} |}.

(** A text of [n] letters [a]. *)
Definition lettersText (n : N) : jsstring := repeat 0x61%N (N.to_nat n).

(** A text of [n] spaces. *)
Definition spacesText (n : N) : jsstring := repeat 0x20%N (N.to_nat n).

(** An inline-text request: fields [userId] and [text], no file part. *)
Definition inlineRequest (userId text : jsstring) : ConvertRequest :=
  {| body_userId := Some userId; body_text := Some text; file := None |}.

(** ** Vocabulary of the further properties *)

(** A computation keeps a relation between the world it starts in and the
    world it leaves, whether it returns or throws. *)
Definition keeps {A : Type} (R : World -> World -> Prop) (m : M A) : Prop :=
  forall w, R w (snd (m w)).

(** Firestore and the bucket are as they were. *)
Definition sameStores (w w' : World) : Prop :=
  firestore w' = firestore w /\ bucket w' = bucket w.

(** The records of every user but [userId] are as they were. *)
Definition otherUsersKept (userId : jsstring) (w w' : World) : Prop :=
  forall u, u <> userId -> conversionsOf w' u = conversionsOf w u.

(** No object has left the bucket. *)
Definition objectsKept (w w' : World) : Prop :=
  forall name, is_Some (bucket w !! name) -> is_Some (bucket w' !! name).

(** The invariant of the record store has survived. *)
Definition wfKept (w w' : World) : Prop := storeWf w -> storeWf w'.

(** The user the [try] block of /convert works for. *)
Definition requestUser (req : ConvertRequest) : jsstring :=
  default [] (body_userId req).

(** The synthesis service answers every call with an error. *)
Definition synthesisDownEnv : Env :=
  {| pdf := pdf calmEnv;
     toStringUtf8 := toStringUtf8 calmEnv;
     dateNow := dateNow calmEnv;
     mathRandom36 := mathRandom36 calmEnv;
     autoId := autoId calmEnv;
     serverTimestamp := serverTimestamp calmEnv;
     firestoreFault := fun _ => None;
     storageFault := fun _ => None;
     synthesizeSpeech := fun _ _ => inl (Error (lit "quota exceeded")) |}.

(** Cloud Storage answers, every Firestore call is refused. *)
Definition firestoreDownEnv : Env :=
  {| pdf := pdf calmEnv;
     toStringUtf8 := toStringUtf8 calmEnv;
     dateNow := dateNow calmEnv;
     mathRandom36 := mathRandom36 calmEnv;
     autoId := autoId calmEnv;
     serverTimestamp := serverTimestamp calmEnv;
     firestoreFault := fun _ => Some (Error (lit "firestore unavailable"));
     storageFault := fun _ => None;
     synthesizeSpeech := synthesizeSpeech calmEnv |}.

(** Firestore answers its first call and refuses every later one. *)
Definition firestoreFlakyEnv : Env :=
  {| pdf := pdf calmEnv;
     toStringUtf8 := toStringUtf8 calmEnv;
     dateNow := dateNow calmEnv;
     mathRandom36 := mathRandom36 calmEnv;
     autoId := autoId calmEnv;
     serverTimestamp := serverTimestamp calmEnv;
     firestoreFault :=
       fun n => match n with
                | O => None
                | S _ => Some (Error (lit "firestore unavailable"))
                end;
     storageFault := fun _ => None;
     synthesizeSpeech := synthesizeSpeech calmEnv |}.

(** Cloud Storage takes the first call and refuses every later one. *)
Definition storageFlakyEnv : Env :=
  {| pdf := pdf calmEnv;
     toStringUtf8 := toStringUtf8 calmEnv;
     dateNow := dateNow calmEnv;
     mathRandom36 := mathRandom36 calmEnv;
     autoId := autoId calmEnv;
     serverTimestamp := serverTimestamp calmEnv;
     firestoreFault := fun _ => None;
     storageFault :=
       fun n => match n with
                | O => None
                | S _ => Some (Error (lit "storage unavailable"))
                end;
     synthesizeSpeech := synthesizeSpeech calmEnv |}.

(** An upload of a PDF file by user [u1]. *)
Definition pdfFileRequest : ConvertRequest :=
  {| body_userId := Some (lit "u1");
     body_text := None;
     file := Some {| mimetype := lit "application/pdf";
                     originalname := lit "paper.pdf";
                     buffer := [x25; x50; x44; x46] |} |}.

(** The sample record with its two artifacts in the bucket. *)
Definition fullRecordWorld : World :=
  {| firestore := {[ lit "u1" := {[ lit "c1" := sampleRecord ]} ]};
     bucket :=
       {[ lit "uploads/original_u1_1700000000000_4fzyo8.txt" :=
            {| content := [x20; x0a]; contentType := lit "text/plain";
               public := true |};
          lit "audio/audio_u1_1700000000002_4fzyo8.mp3" :=
            {| content := [x49; x44; x33]; contentType := lit "audio/mpeg";
               public := true |};
          lit "audio/other.mp3" :=
            {| content := []; contentType := lit "audio/mpeg";
               public := true |} ]};
     tick := 0 |}.

(** The name [generateFileName] returns when called in world [w]. *)
Definition generatedNameAt (E : Env) (userId type : jsstring) (w : World)
  : jsstring :=
  type ++ lit "_" ++ userId ++ lit "_"
    ++ numberToString (dateNow E (tick w)) ++ lit "_"
    ++ substring 2 8 (mathRandom36 E (S (tick w))).

(** The logical name of the audio artifact of a conversion whose
    validated text reaches the handler in world [w]. *)
Definition audioFileNameAt (E : Env) (userId : jsstring) (w : World)
  : jsstring :=
  lit "audio/" ++ generatedNameAt E userId (lit "audio") w ++ lit ".mp3".

(** The logical name of the original of an upload handled from world [w]. *)
Definition storageFileNameAt (E : Env) (userId : jsstring) (it : InputType)
    (w : World) : jsstring :=
  lit "uploads/" ++ generatedNameAt E userId (lit "original") w
    ++ lit "." ++ inputTypeString it.

(** The object [uploadFile] leaves in the bucket. *)
Definition publicObject (buf : Buffer) (ct : jsstring) : StoredObject :=
  {| content := buf; contentType := ct; public := true |}.

(** The [conversionData] the handler builds. *)
Definition conversionDataOf (textContent : jsstring) (it : InputType)
    (ofn ofu : option jsstring) (url : jsstring) (now : N) : Conversion :=
  {| text := textContent;
     inputType := it;
     originalFileName := ofn;
     originalFileUrl := ofu;
     audioUrl := url;
     status := lit "completed";
     completedAt := now;
     textLength := jsLength textContent;
     id_ := None;
     createdAt := None |}.

(** The success response of /convert. *)
Definition convertedResponse (conversionId url : jsstring) (len : N)
    (it : InputType) : Response :=
  resJson (ConvertedJson true conversionId url len it
             (lit "Text successfully converted to audio")).

(** The type tag the handler derives from the declared media type. *)
Definition inputTypeOf (f : FilePart) : InputType :=
  if strictEq (mimetype f) (lit "application/pdf") then Pdf else Txt.

(** pdf-parse rejects every buffer. *)
Definition brokenPdfEnv : Env :=
  {| pdf := fun _ => inl (Error (lit "Invalid PDF structure"));
     toStringUtf8 := toStringUtf8 calmEnv;
     dateNow := dateNow calmEnv;
     mathRandom36 := mathRandom36 calmEnv;
     autoId := autoId calmEnv;
     serverTimestamp := serverTimestamp calmEnv;
     firestoreFault := fun _ => None;
     storageFault := fun _ => None;
     synthesizeSpeech := synthesizeSpeech calmEnv |}.

(** An upload of one byte more than the size limit. *)
Definition oversizedRequest : ConvertRequest :=
  {| body_userId := Some (lit "u1");
     body_text := None;
     file := Some {| mimetype := lit "application/pdf";
                     originalname := lit "big.pdf";
                     buffer := repeat x00 (N.to_nat (fileSize + 1)) |} |}.

(** * Properties *)

(** ** Strings *)

Lemma strictEq_spec (a b : jsstring) : strictEq a b = true <-> a = b.
Proof.
  revert b. induction a as [|x a IH]; intros [|y b]; simpl; try easy.
  rewrite andb_true_iff, N.eqb_eq, IH. split.
  - intros [-> ->]. reflexivity.
  - intros [= -> ->]. auto.
Qed.

Lemma trimStart_nil (s : jsstring) :
  trimStart s = [] <-> forallb isWhiteSpace s = true.
Proof.
  induction s as [|c s IH]; simpl; [easy|].
  destruct (isWhiteSpace c); simpl; [exact IH | easy].
Qed.

Lemma trimStart_suffix (s : jsstring) : exists p, s = p ++ trimStart s.
Proof.
  induction s as [|c s [p Hp]]; simpl.
  - exists []. reflexivity.
  - destruct (isWhiteSpace c).
    + exists (c :: p). simpl. congruence.
    + exists []. reflexivity.
Qed.

Lemma trimStart_head (s : jsstring) c r :
  trimStart s = c :: r -> isWhiteSpace c = false.
Proof.
  induction s as [|d s IH]; simpl; [easy|].
  destruct (isWhiteSpace d) eqn:Hd; [exact IH|].
  intros [= -> _]. exact Hd.
Qed.

(** [!s.trim()] holds exactly for the strings made of white space only,
    the empty string among them. *)
Lemma trim_blank (s : jsstring) :
  truthy (trim s) = false <-> forallb isWhiteSpace s = true.
Proof.
  unfold trim, trimEnd. split.
  - intros H. apply trimStart_nil.
    destruct (trimStart s) as [|c r] eqn:Hs; [reflexivity|].
    exfalso.
    assert (Hc : isWhiteSpace c = false) by (eapply trimStart_head; eauto).
    destruct (trimStart (rev (c :: r))) as [|d q] eqn:Hq.
    + apply trimStart_nil in Hq. rewrite forallb_forall in Hq.
      specialize (Hq c). rewrite Hq in Hc; [discriminate|].
      apply in_rev. rewrite rev_involutive. left. reflexivity.
    + simpl in H. destruct (rev q); discriminate.
  - intros H. apply trimStart_nil in H. rewrite H. reflexivity.
Qed.

Lemma split_not_nil sep (s : jsstring) : split sep s <> [].
Proof.
  destruct s as [|c s]; simpl; [easy|].
  destruct (c =? sep)%N; [easy|]. destruct (split sep s); easy.
Qed.

Lemma split_no_sep sep (s : jsstring) : ~ In sep s -> split sep s = [s].
Proof.
  induction s as [|c s IH]; simpl; [reflexivity|].
  intros H. destruct (N.eqb_spec c sep) as [->|Hne].
  - exfalso. apply H. left. reflexivity.
  - rewrite IH; [reflexivity|]. intros Hin. apply H. right. exact Hin.
Qed.

Lemma split_two sep (p q : jsstring) :
  exists a b rest, split sep (p ++ sep :: q) = a :: b :: rest.
Proof.
  induction p as [|c p (a & b & rest & IH)]; simpl.
  - rewrite N.eqb_refl. pose proof (split_not_nil sep q) as Hq.
    destruct (split sep q) as [|b rest]; [easy|]. eauto.
  - rewrite IH. destruct (c =? sep)%N; eauto.
Qed.

(** The last segment of a string is what follows its last separator. *)
Lemma pop_split_app sep (p q : jsstring) :
  pop (split sep (p ++ sep :: q)) = pop (split sep q).
Proof.
  induction p as [|c p IH]; simpl.
  - rewrite N.eqb_refl. pose proof (split_not_nil sep q) as Hq.
    destruct (split sep q); easy.
  - destruct (split_two sep p q) as (a & b & rest & Hs).
    rewrite Hs in *. destruct (c =? sep)%N; exact IH.
Qed.

Lemma pop_split_last sep (p base : jsstring) :
  ~ In sep base -> pop (split sep (p ++ sep :: base)) = Some base.
Proof.
  intros H. rewrite pop_split_app, split_no_sep by exact H. reflexivity.
Qed.

(** The last path segment of the URL of [folder/base]. *)
Lemma pop_publicUrlOf (folder base : jsstring) :
  ~ In slash base ->
  pop (split slash (publicUrlOf (folder ++ slash :: base))) = Some base.
Proof.
  intros H. unfold publicUrlOf. rewrite !app_assoc.
  apply pop_split_last. exact H.
Qed.

(** ** Running the adapters *)

Section Runs.

Variable E : Env.

Lemma bind_inr {A B : Type} (m : M A) (k : A -> M B) w a w' :
  m w = (inr a, w') -> bind m k w = k a w'.
Proof. unfold bind. intros ->. reflexivity. Qed.

Lemma bind_inl {A B : Type} (m : M A) (k : A -> M B) w e w' :
  m w = (inl e, w') -> bind m k w = (inl e, w').
Proof. unfold bind. intros ->. reflexivity. Qed.

Lemma rethrow_id {A : Type} (m : M A) w : rethrow m w = m w.
Proof. unfold rethrow, tryCatch, throw. destruct (m w) as [[e|a] w']; reflexivity. Qed.

Lemma firestoreCall_run w :
  firestoreCall E w =
  match firestoreFault E (tick w) with
  | Some e => (inl e, ticked w)
  | None => (inr tt, ticked w)
  end.
Proof.
  unfold firestoreCall, bind, nextTick. simpl.
  destruct (firestoreFault E (tick w)); reflexivity.
Qed.

Lemma storageCall_run w :
  storageCall E w =
  match storageFault E (tick w) with
  | Some e => (inl e, ticked w)
  | None => (inr tt, ticked w)
  end.
Proof.
  unfold storageCall, bind, nextTick. simpl.
  destruct (storageFault E (tick w)); reflexivity.
Qed.

Lemma getConversions_run userId w :
  getConversions E userId w =
  match firestoreFault E (tick w) with
  | Some e => (inl e, ticked w)
  | None =>
      (inr (map withDocId (map_to_list (conversionsOf w userId))), ticked w)
  end.
Proof.
  unfold getConversions, collectionGet. rewrite rethrow_id.
  unfold bind at 1 2. rewrite firestoreCall_run.
  destruct (firestoreFault E (tick w)); reflexivity.
Qed.

Lemma deleteConversion_run userId conversionId w :
  deleteConversion E userId conversionId w =
  match firestoreFault E (tick w) with
  | Some e => (inl e, ticked w)
  | None =>
      (inr conversionId,
       {| firestore :=
            <[userId := delete conversionId (conversionsOf w userId)]>
              (firestore w);
          bucket := bucket w;
          tick := S (tick w) |})
  end.
Proof.
  unfold deleteConversion, docDelete. rewrite rethrow_id.
  unfold bind at 1 2. rewrite firestoreCall_run.
  destruct (firestoreFault E (tick w)); reflexivity.
Qed.

(** A file deletion, whatever its outcome, leaves Firestore alone. *)
Lemma deleteFile_firestore fileName w :
  firestore (snd (deleteFile E fileName w)) = firestore w.
Proof.
  unfold deleteFile, fileDelete. rewrite rethrow_id.
  unfold bind at 1 2. rewrite storageCall_run.
  destruct (storageFault E (tick w)); [reflexivity|].
  unfold bind, getWorld. simpl.
  destruct (bucket w !! fileName); reflexivity.
Qed.

(** The deletion loop never throws and leaves Firestore alone. *)
Lemma deleteFiles_total files w :
  exists w', deleteFiles E files w = (inr tt, w')
             /\ firestore w' = firestore w.
Proof.
  unfold deleteFiles. revert w.
  induction files as [|f files IH]; intros w; simpl.
  - exists w. split; reflexivity.
  - pose proof (deleteFile_firestore f w) as Hf.
    unfold bind at 1. unfold tryCatch, bind at 1.
    destruct (deleteFile E f w) as [[e|b] w1]; simpl in *.
    + destruct (IH w1) as (w2 & H2 & Hfs). exists w2.
      split; [exact H2 | congruence].
    + destruct (IH w1) as (w2 & H2 & Hfs). exists w2.
      split; [exact H2 | congruence].
Qed.

(** *** Looking a record up in the listing *)

Lemma find_all_false {A : Type} (f : A -> bool) (l : list A) :
  (forall x, In x l -> f x = false) -> find f l = None.
Proof.
  induction l as [|x l IH]; simpl; [reflexivity|].
  intros H. rewrite (H x) by (left; reflexivity).
  apply IH. intros y Hy. apply H. right. exact Hy.
Qed.

Lemma find_one_true {A : Type} (f : A -> bool) (l : list A) x :
  In x l -> f x = true -> exists y, find f l = Some y.
Proof.
  induction l as [|z l IH]; simpl; [easy|].
  intros [->|Hin] Hx.
  - rewrite Hx. eauto.
  - destruct (f z); eauto.
Qed.

Lemma hasId_spec conversionId c :
  hasId conversionId c = true <-> id_ c = Some conversionId.
Proof.
  unfold hasId. destruct (id_ c) as [i|]; [|easy].
  rewrite strictEq_spec. split; congruence.
Qed.

Lemma in_listing (m : gmap jsstring Conversion) c :
  In c (map withDocId (map_to_list m)) <->
  exists k d, m !! k = Some d /\ c = withDocId (k, d).
Proof.
  rewrite in_map_iff. split.
  - intros ([k d] & <- & Hin). exists k, d. split; [|reflexivity].
    apply elem_of_map_to_list, list_elem_of_In. exact Hin.
  - intros (k & d & Hm & ->). exists (k, d). split; [reflexivity|].
    apply list_elem_of_In, elem_of_map_to_list. exact Hm.
Qed.

Lemma find_noRecord w userId conversionId :
  noRecord w userId conversionId ->
  find (hasId conversionId)
       (map withDocId (map_to_list (conversionsOf w userId))) = None.
Proof.
  intros H. apply find_all_false. intros c Hc.
  apply in_listing in Hc as (k & d & Hm & ->).
  destruct (hasId conversionId (withDocId (k, d))) eqn:Hid; [|reflexivity].
  apply hasId_spec in Hid. exfalso. exact (H k d Hm Hid).
Qed.

Lemma find_hasRecord w userId conversionId :
  hasRecord w userId conversionId ->
  exists c, find (hasId conversionId)
              (map withDocId (map_to_list (conversionsOf w userId))) = Some c.
Proof.
  intros (k & d & Hm & Hid).
  apply (find_one_true _ _ (withDocId (k, d))).
  - apply in_listing. eauto.
  - apply hasId_spec. exact Hid.
Qed.

Lemma conversionsOf_ticked w userId :
  conversionsOf (ticked w) userId = conversionsOf w userId.
Proof. reflexivity. Qed.

(** *** The DELETE route, case by case *)

Lemma deleteConversionRoute_run userId conversionId w :
  truthy userId = true -> truthy conversionId = true ->
  deleteConversionRoute E userId conversionId w =
  match firestoreFault E (tick w) with
  | Some e => (deleteCatch e, ticked w)
  | None =>
      match find (hasId conversionId)
                 (map withDocId (map_to_list (conversionsOf w userId))) with
      | None => (notFoundResponse, ticked w)
      | Some conversion =>
          let w1 :=
            snd (deleteFiles E (filesToDelete conversion) (ticked w)) in
          match firestoreFault E (tick w1) with
          | Some e => (deleteCatch e, ticked w1)
          | None =>
              (deletedResponse conversionId,
               {| firestore :=
                    <[userId := delete conversionId (conversionsOf w1 userId)]>
                      (firestore w1);
                  bucket := bucket w1;
                  tick := S (tick w1) |})
          end
      end
  end.
Proof.
  intros Hu Hc. unfold deleteConversionRoute, respond, deleteTry.
  rewrite Hu, Hc. simpl. unfold bind at 1. rewrite getConversions_run.
  destruct (firestoreFault E (tick w)); [reflexivity|].
  destruct (find _ _) as [conversion|]; [|reflexivity].
  destruct (deleteFiles_total (filesToDelete conversion) (ticked w))
    as (w1 & Hw1 & _).
  unfold bind at 1. rewrite Hw1. simpl.
  unfold bind at 1. rewrite deleteConversion_run.
  destruct (firestoreFault E (tick w1)); reflexivity.
Qed.

End Runs.

(** ** DELETE /conversions/:userId/:conversionId *)

Lemma storeWf_noRecord_after_delete w w1 userId conversionId :
  storeWf w ->
  conversionsOf w1 userId = delete conversionId (conversionsOf w userId) ->
  noRecord w1 userId conversionId.
Proof.
  intros Hwf Heq k d Hk. rewrite Heq in Hk.
  apply lookup_delete_Some in Hk as [Hne Hk].
  rewrite (Hwf _ _ _ Hk). congruence.
Qed.

Lemma conversionsOf_insert (f : gmap jsstring (gmap jsstring Conversion))
    (b : gmap jsstring StoredObject) (t : nat)
    (userId : jsstring) (m : gmap jsstring Conversion) :
  conversionsOf
    {| firestore := <[userId := m]> f; bucket := b; tick := t |} userId = m.
Proof. unfold conversionsOf. simpl. rewrite lookup_insert_eq. reflexivity. Qed.

(** C5. A DELETE for an id that no record of the user carries answers 404
    "Conversion not found" and leaves Firestore and the bucket as they
    were, provided the listing call itself goes through; hence, on a store
    where every record is listed under its document id, deleting again an
    id whose deletion just succeeded answers 404. *)
Theorem delete_absent_not_found (E : Env) (userId conversionId : jsstring) :
  truthy userId = true -> truthy conversionId = true ->
  (forall w,
      firestoreFault E (tick w) = None ->
      noRecord w userId conversionId ->
      exists w',
        deleteConversionRoute E userId conversionId w = (notFoundResponse, w')
        /\ firestore w' = firestore w /\ bucket w' = bucket w)
  /\
  (forall w w1,
      storeWf w ->
      deleteConversionRoute E userId conversionId w
        = (deletedResponse conversionId, w1) ->
      firestoreFault E (tick w1) = None ->
      exists w2,
        deleteConversionRoute E userId conversionId w1 = (notFoundResponse, w2)
        /\ firestore w2 = firestore w1 /\ bucket w2 = bucket w1).
Proof.
  intros Hu Hc.
  assert (Hfirst : forall w,
      firestoreFault E (tick w) = None ->
      noRecord w userId conversionId ->
      exists w',
        deleteConversionRoute E userId conversionId w = (notFoundResponse, w')
        /\ firestore w' = firestore w /\ bucket w' = bucket w).
  { intros w Hok Hno. exists (ticked w).
    rewrite deleteConversionRoute_run, Hok, find_noRecord by assumption.
    repeat split. }
  split; [exact Hfirst|].
  intros w w1 Hwf Hrun Hok. apply Hfirst; [exact Hok|].
  rewrite deleteConversionRoute_run in Hrun by assumption.
  destruct (firestoreFault E (tick w)); [discriminate Hrun|].
  destruct (find _ _) as [conversion|]; [|discriminate Hrun].
  destruct (deleteFiles_total E (filesToDelete conversion) (ticked w))
    as (w' & Hw' & Hfs).
  rewrite Hw' in Hrun. simpl in Hrun.
  destruct (firestoreFault E (tick w')); [discriminate Hrun|].
  injection Hrun as <-.
  apply (storeWf_noRecord_after_delete w); [exact Hwf|].
  rewrite conversionsOf_insert. unfold conversionsOf. rewrite Hfs.
  reflexivity.
Qed.

Lemma storeWf_orphanedRecordWorld : storeWf orphanedRecordWorld.
Proof.
  intros u k d. unfold conversionsOf, orphanedRecordWorld. simpl.
  destruct (decide (u = lit "u1")) as [->|Hne].
  - rewrite lookup_singleton_eq. simpl.
    intros [<- <-]%lookup_singleton_Some. reflexivity.
  - rewrite lookup_singleton_ne by congruence. simpl.
    rewrite lookup_empty. discriminate.
Qed.

Lemma hasRecord_orphanedRecordWorld :
  hasRecord orphanedRecordWorld (lit "u1") (lit "c1").
Proof.
  exists (lit "c1"), sampleRecord. split; [|reflexivity].
  unfold conversionsOf, orphanedRecordWorld. simpl.
  rewrite lookup_singleton_eq. simpl. apply lookup_singleton_eq.
Qed.

Lemma delete_absent_not_found_witness :
  (exists w',
      deleteConversionRoute calmEnv (lit "u1") (lit "c1") emptyWorld
        = (notFoundResponse, w')
      /\ firestore w' = firestore emptyWorld
      /\ bucket w' = bucket emptyWorld)
  /\
  (exists w2,
      deleteConversionRoute calmEnv (lit "u1") (lit "c1")
        (snd (deleteConversionRoute calmEnv (lit "u1") (lit "c1")
                orphanedRecordWorld))
        = (notFoundResponse, w2)
      /\ firestore w2
         = firestore (snd (deleteConversionRoute calmEnv (lit "u1") (lit "c1")
                             orphanedRecordWorld))
      /\ bucket w2
         = bucket (snd (deleteConversionRoute calmEnv (lit "u1") (lit "c1")
                          orphanedRecordWorld))).
Proof.
  destruct (delete_absent_not_found calmEnv (lit "u1") (lit "c1")
              eq_refl eq_refl) as [Habsent Hagain].
  split.
  - apply Habsent; [reflexivity|].
    intros k d. unfold conversionsOf, emptyWorld. simpl.
    rewrite lookup_empty. simpl. rewrite lookup_empty. discriminate.
  - apply (Hagain orphanedRecordWorld).
    + exact storeWf_orphanedRecordWorld.
    + rewrite deleteConversionRoute_run by reflexivity. simpl.
      destruct (find_hasRecord _ _ _ hasRecord_orphanedRecordWorld)
        as (c & ->).
      reflexivity.
    + reflexivity.
Defined.

(** A file deletion does fail when the object is missing. *)
Lemma deleteFile_missing (E : Env) (fileName : jsstring) (w : World) :
  storageFault E (tick w) = None ->
  bucket w !! fileName = None ->
  deleteFile E fileName w = (inl (noSuchObject fileName), ticked w).
Proof.
  intros Hok Hmiss. unfold deleteFile, fileDelete. rewrite rethrow_id.
  unfold bind at 1 2. rewrite storageCall_run, Hok.
  unfold bind, getWorld. simpl. rewrite Hmiss. reflexivity.
Qed.

(** ... and when Cloud Storage refuses the call. *)
Lemma deleteFile_refused (E : Env) (fileName : jsstring) (w : World) e :
  storageFault E (tick w) = Some e ->
  deleteFile E fileName w = (inl e, ticked w).
Proof.
  intros Hko. unfold deleteFile, fileDelete. rewrite rethrow_id.
  unfold bind at 1 2. rewrite storageCall_run, Hko. reflexivity.
Qed.

(** C6. When a record with the id is listed and the Firestore calls go
    through, the DELETE route answers success with the deleted id and the
    document is gone, whatever the bucket holds and whatever each file
    deletion does: no assumption bears on Cloud Storage. *)
Theorem delete_survives_artifact_failures (E : Env)
    (userId conversionId : jsstring) (w : World) :
  truthy userId = true -> truthy conversionId = true ->
  firestoreUp E ->
  hasRecord w userId conversionId ->
  exists w',
    deleteConversionRoute E userId conversionId w
      = (deletedResponse conversionId, w')
    /\ conversionsOf w' userId = delete conversionId (conversionsOf w userId)
    /\ (storeWf w -> noRecord w' userId conversionId).
Proof.
  intros Hu Hc Hup Hrec.
  rewrite deleteConversionRoute_run by assumption. rewrite Hup.
  destruct (find_hasRecord _ _ _ Hrec) as (conversion & ->).
  destruct (deleteFiles_total E (filesToDelete conversion) (ticked w))
    as (w1 & Hw1 & Hfs).
  rewrite Hw1. simpl. rewrite Hup. eexists. split; [reflexivity|].
  assert (Heq : conversionsOf
                  {| firestore :=
                       <[userId := delete conversionId (conversionsOf w1 userId)]>
                         (firestore w1);
                     bucket := bucket w1; tick := S (tick w1) |} userId
                = delete conversionId (conversionsOf w userId)).
  { rewrite conversionsOf_insert. unfold conversionsOf. rewrite Hfs.
    reflexivity. }
  split; [exact Heq|].
  intros Hwf. exact (storeWf_noRecord_after_delete w _ _ _ Hwf Heq).
Qed.

Lemma delete_survives_artifact_failures_witness :
  bucket orphanedRecordWorld = ∅
  /\ storageFault storageDownEnv 1 = Some (Error (lit "storage unavailable"))
  /\ exists w',
       deleteConversionRoute storageDownEnv (lit "u1") (lit "c1")
         orphanedRecordWorld
         = (deletedResponse (lit "c1"), w')
       /\ conversionsOf w' (lit "u1")
          = delete (lit "c1") (conversionsOf orphanedRecordWorld (lit "u1"))
       /\ (storeWf orphanedRecordWorld -> noRecord w' (lit "u1") (lit "c1")).
Proof.
  split; [reflexivity|]. split; [reflexivity|].
  apply (delete_survives_artifact_failures storageDownEnv).
  - reflexivity.
  - reflexivity.
  - intros n. reflexivity.
  - exact hasRecord_orphanedRecordWorld.
Defined.

(** ** The record store adapter *)

(** C7 as stated fails: deleting an id that is absent from the user's
    namespace returns the id, no error is raised. *)
Lemma deleteConversion_absent_counterexample :
  conversionsOf emptyWorld (lit "u1") !! lit "c1" = None
  /\ fst (deleteConversion calmEnv (lit "u1") (lit "c1") emptyWorld)
     = inr (lit "c1").
Proof.
  split.
  - unfold conversionsOf, emptyWorld. simpl. rewrite lookup_empty. simpl.
    apply lookup_empty.
  - rewrite deleteConversion_run. reflexivity.
Qed.

(** C7, amended. [deleteConversion] on an id that is absent from the
    user's namespace returns that id and leaves the user's records and the
    bucket as they were; the only failure is the one of the Firestore call
    itself, whose error it throws again. *)
Theorem deleteConversion_absent (E : Env) (userId conversionId : jsstring)
    (w : World) :
  conversionsOf w userId !! conversionId = None ->
  match firestoreFault E (tick w) with
  | None =>
      exists w',
        deleteConversion E userId conversionId w = (inr conversionId, w')
        /\ conversionsOf w' userId = conversionsOf w userId
        /\ bucket w' = bucket w
  | Some e =>
      deleteConversion E userId conversionId w = (inl e, ticked w)
  end.
Proof.
  intros Habs. rewrite deleteConversion_run.
  destruct (firestoreFault E (tick w)); [reflexivity|].
  eexists. split; [reflexivity|]. split; [|reflexivity].
  rewrite conversionsOf_insert. apply delete_id. exact Habs.
Qed.

Lemma deleteConversion_absent_witness :
  conversionsOf emptyWorld (lit "u1") !! lit "c1" = None
  /\ exists w',
       deleteConversion calmEnv (lit "u1") (lit "c1") emptyWorld
         = (inr (lit "c1"), w')
       /\ conversionsOf w' (lit "u1") = conversionsOf emptyWorld (lit "u1")
       /\ bucket w' = bucket emptyWorld.
Proof.
  assert (Habs : conversionsOf emptyWorld (lit "u1") !! lit "c1" = None).
  { unfold conversionsOf, emptyWorld. simpl. rewrite lookup_empty. simpl.
    apply lookup_empty. }
  split; [exact Habs|].
  exact (deleteConversion_absent calmEnv (lit "u1") (lit "c1") emptyWorld Habs).
Defined.

(** ** POST /convert *)

Section ConvertRuns.

Variable E : Env.

Lemma uploadFile_run (fileName : jsstring) (buf : Buffer) (ct : jsstring) w :
  storageFault E (tick w) = None ->
  storageFault E (S (tick w)) = None ->
  uploadFile E fileName buf ct w =
  (inr (publicUrlOf fileName),
   {| firestore := firestore w;
      bucket := <[fileName := {| content := buf; contentType := ct;
                                 public := true |}]> (bucket w);
      tick := S (S (tick w)) |}).
Proof.
  intros H0 H1. unfold uploadFile, fileSave, fileMakePublic.
  rewrite rethrow_id.
  unfold bind at 1 2 3. rewrite storageCall_run, H0.
  unfold bind at 1, getWorld, setBucket. simpl.
  unfold bind at 1 2. rewrite storageCall_run. simpl. rewrite H1.
  unfold bind, ret. simpl. rewrite lookup_insert_eq. simpl.
  rewrite insert_insert_eq. reflexivity.
Qed.

Lemma generateFileName_run (userId type : jsstring) w :
  generateFileName E userId type w =
  (inr (type ++ lit "_" ++ userId ++ lit "_"
          ++ numberToString (dateNow E (tick w)) ++ lit "_"
          ++ substring 2 8 (mathRandom36 E (S (tick w)))),
   ticked (ticked w)).
Proof. reflexivity. Qed.

Lemma convertAndSaveAudio_run (text fileName voiceName : jsstring) w audio :
  synthesizeSpeech E (tick w) (requestFor text voiceName) = inr audio ->
  storageFault E (S (tick w)) = None ->
  storageFault E (S (S (tick w))) = None ->
  convertAndSaveAudio E text fileName voiceName w =
  (inr {| ar_success := true;
          ar_audioUrl := publicUrlOf fileName;
          ar_fileName := fileName;
          ar_audioSize := N.of_nat (length audio);
          ar_voiceUsed := voiceName |},
   {| firestore := firestore w;
      bucket := <[fileName := {| content := audio;
                                 contentType := lit "audio/mpeg";
                                 public := true |}]> (bucket w);
      tick := S (S (S (tick w))) |}).
Proof.
  intros Hs H1 H2.
  unfold convertAndSaveAudio, convertTextToAudio, saveAudioFile.
  rewrite rethrow_id. unfold bind at 1. rewrite rethrow_id.
  unfold bind at 1, nextTick. fold (requestFor text voiceName).
  rewrite Hs. unfold ret at 1.
  unfold bind at 1. rewrite rethrow_id. unfold bind at 1.
  rewrite uploadFile_run by assumption. reflexivity.
Qed.

Lemma saveConversion_run (userId : jsstring) (conversionData : Conversion) w :
  firestoreFault E (S (tick w)) = None ->
  saveConversion E userId conversionData w =
  (inr (autoId E (tick w)),
   {| firestore :=
        <[userId :=
            <[autoId E (tick w) :=
                savedAs conversionData (autoId E (tick w))
                  (serverTimestamp E (S (S (tick w))))]>
              (conversionsOf w userId)]> (firestore w);
      bucket := bucket w;
      tick := S (S (S (tick w))) |}).
Proof.
  intros Hok. unfold saveConversion, docSet. rewrite rethrow_id.
  unfold bind at 1, nextTick. unfold bind at 1 2.
  rewrite firestoreCall_run. simpl. rewrite Hok. reflexivity.
Qed.

(** The success path of the handler, from validated text to response. *)
Lemma validateAndConvert_run (userId textContent : jsstring)
    (inputType : InputType) (originalFileName originalFileUrl : option jsstring)
    w :
  allWhiteSpace textContent = false ->
  (jsLength textContent <= 5000)%N ->
  storageUp E -> firestoreUp E -> synthesisUp E ->
  exists conversionId audioUrl_ record w',
    validateAndConvert E userId textContent inputType
      originalFileName originalFileUrl w
    = (inr (resJson
              (ConvertedJson true conversionId audioUrl_
                 (jsLength textContent) inputType
                 (lit "Text successfully converted to audio"))), w')
    /\ truthy audioUrl_ = true
    /\ conversionsOf w' userId !! conversionId = Some record
    /\ text record = textContent
    /\ textLength record = jsLength (text record)
    /\ audioUrl record = audioUrl_
    /\ id_ record = Some conversionId.
Proof.
  intros Hws Hlen Hst Hfs Hsyn. unfold validateAndConvert.
  assert (Htrim : truthy (trim textContent) = true).
  { destruct (truthy (trim textContent)) eqn:Ht; [reflexivity|].
    apply trim_blank in Ht. unfold allWhiteSpace in Hws. congruence. }
  rewrite Htrim. change (negb true) with false. cbv iota.
  apply N.leb_le in Hlen. rewrite N.leb_antisym in Hlen.
  apply negb_true_iff in Hlen. rewrite Hlen.
  erewrite bind_inr by apply generateFileName_run.
  set (w2 := ticked (ticked w)).
  destruct (Hsyn (tick w2) (requestFor textContent defaultVoice))
    as [audio Haudio].
  erewrite bind_inr
    by exact (convertAndSaveAudio_run _ _ _ _ audio Haudio (Hst _) (Hst _)).
  erewrite bind_inr by reflexivity.
  erewrite bind_inr by (apply saveConversion_run; apply Hfs).
  unfold ret. cbn [ar_audioUrl tick firestore bucket].
  eexists _, _, _, _. split; [reflexivity|].
  split; [reflexivity|].
  split; [rewrite conversionsOf_insert; apply lookup_insert_eq|].
  repeat split.
Qed.

Lemma bind_inr_inv {A B : Type} (m : M A) (k : A -> M B) w b w' :
  bind m k w = (inr b, w') ->
  exists a w1, m w = (inr a, w1) /\ k a w1 = (inr b, w').
Proof.
  unfold bind. destruct (m w) as [[e|a] w1]; [discriminate|]. eauto.
Qed.

(** Past the two validations the handler answers 200 or throws. *)
Lemma validateAndConvert_status (userId textContent : jsstring)
    (inputType : InputType) (originalFileName originalFileUrl : option jsstring)
    w r w' :
  allWhiteSpace textContent = false ->
  (5000 <? jsLength textContent)%N = false ->
  validateAndConvert E userId textContent inputType
    originalFileName originalFileUrl w = (inr r, w') ->
  statusCode r = 200%N.
Proof.
  intros Hws Hlen. unfold validateAndConvert.
  assert (Htrim : truthy (trim textContent) = true).
  { destruct (truthy (trim textContent)) eqn:Ht; [reflexivity|].
    apply trim_blank in Ht. unfold allWhiteSpace in Hws. congruence. }
  rewrite Htrim, Hlen. change (negb true) with false. cbv iota.
  intros H.
  apply bind_inr_inv in H as (name & w1 & _ & H).
  apply bind_inr_inv in H as (audioResult & w2 & _ & H).
  apply bind_inr_inv in H as (now & w3 & _ & H).
  apply bind_inr_inv in H as (conversionId & w4 & _ & H).
  injection H as <- _. reflexivity.
Qed.

Lemma validateAndConvert_blank (userId textContent : jsstring)
    (inputType : InputType) (originalFileName originalFileUrl : option jsstring)
    w :
  allWhiteSpace textContent = true ->
  validateAndConvert E userId textContent inputType
    originalFileName originalFileUrl w = (inr emptyContentResponse, w).
Proof.
  intros Hws. unfold validateAndConvert.
  apply trim_blank in Hws. rewrite Hws. reflexivity.
Qed.

Lemma validateAndConvert_tooLong (userId textContent : jsstring)
    (inputType : InputType) (originalFileName originalFileUrl : option jsstring)
    w :
  allWhiteSpace textContent = false ->
  (5000 <? jsLength textContent)%N = true ->
  validateAndConvert E userId textContent inputType
    originalFileName originalFileUrl w = (inr tooLongResponse, w).
Proof.
  intros Hws Hlen. unfold validateAndConvert.
  assert (Htrim : truthy (trim textContent) = true).
  { destruct (truthy (trim textContent)) eqn:Ht; [reflexivity|].
    apply trim_blank in Ht. unfold allWhiteSpace in Hws. congruence. }
  rewrite Htrim, Hlen. reflexivity.
Qed.

(** The handler sends what its [try]/[catch] sends. *)
Lemma convertHandler_sent (req : ConvertRequest) w :
  sent (fst (convertHandler E req w))
    = fst (respond (convertTry E req) convertCatch w)
  /\ snd (convertHandler E req w)
     = snd (respond (convertTry E req) convertCatch w).
Proof.
  unfold convertHandler.
  destruct (respond (convertTry E req) convertCatch w). split; reflexivity.
Qed.

Lemma convertTry_acquired (req : ConvertRequest) (userId : jsstring) w
    t it ofn ofu w1 :
  body_userId req = Some userId -> truthy userId = true ->
  acquireText E userId req w = (inr (Content t it ofn ofu), w1) ->
  convertTry E req w = validateAndConvert E userId t it ofn ofu w1.
Proof.
  intros Hb Hu Hacq. unfold convertTry. rewrite Hb. cbn [truthyOpt].
  rewrite Hu. change (negb true) with false. cbv iota.
  cbn [default from_option]. erewrite bind_inr by exact Hacq. reflexivity.
Qed.

Lemma acquireText_inline (userId txt : jsstring) w :
  truthy txt = true ->
  acquireText E userId (inlineRequest userId txt) w
    = (inr (Content txt Text None None), w).
Proof.
  intros Ht. unfold acquireText, inlineRequest. cbn [file body_text truthyOpt].
  rewrite Ht. reflexivity.
Qed.

Lemma allWhiteSpace_false_truthy (txt : jsstring) :
  allWhiteSpace txt = false -> truthy txt = true.
Proof. destruct txt; [discriminate | reflexivity]. Qed.

(** An inline request with a user id and a text that is not blank runs
    the validations and the conversion on that text. *)
Lemma postConvert_inline (userId txt : jsstring) w :
  truthy userId = true -> allWhiteSpace txt = false ->
  sent (fst (postConvert E (inlineRequest userId txt) w))
    = fst (respond (validateAndConvert E userId txt Text None None)
             convertCatch w)
  /\ snd (postConvert E (inlineRequest userId txt) w)
     = snd (respond (validateAndConvert E userId txt Text None None)
              convertCatch w).
Proof.
  intros Hu Hws. unfold postConvert. cbn [uploadSingle inlineRequest file].
  fold (inlineRequest userId txt).
  destruct (convertHandler_sent (inlineRequest userId txt) w) as [-> ->].
  unfold respond.
  rewrite (convertTry_acquired (inlineRequest userId txt) userId w
             txt Text None None w eq_refl Hu)
    by (apply acquireText_inline, allWhiteSpace_false_truthy, Hws).
  split; reflexivity.
Qed.

End ConvertRuns.

(** C1. An inline-text request with a user id and a text of 1 to 5000
    code units that is not all white space, when the synthesis, storage
    and Firestore calls go through, is answered with [success: true], a
    non-empty [audioUrl] and [textLength] equal to the length of the text;
    the record written holds the text, and its [textLength] is the length
    of its [text]. *)
Theorem convert_inline_success (E : Env) (w : World) (userId txt : jsstring) :
  truthy userId = true ->
  (1 <= jsLength txt)%N -> (jsLength txt <= 5000)%N ->
  allWhiteSpace txt = false ->
  storageUp E -> firestoreUp E -> synthesisUp E ->
  exists conversionId audioUrl_ record,
    sent (fst (postConvert E (inlineRequest userId txt) w))
      = resJson (ConvertedJson true conversionId audioUrl_ (jsLength txt) Text
                   (lit "Text successfully converted to audio"))
    /\ audioUrl_ <> []
    /\ conversionsOf (snd (postConvert E (inlineRequest userId txt) w)) userId
         !! conversionId = Some record
    /\ text record = txt
    /\ textLength record = jsLength (text record)
    /\ audioUrl record = audioUrl_.
Proof.
  intros Hu _ Hlen Hws Hst Hfs Hsyn.
  destruct (postConvert_inline E userId txt w Hu Hws) as [-> ->].
  destruct (validateAndConvert_run E userId txt Text None None w
              Hws Hlen Hst Hfs Hsyn)
    as (conversionId & url & record & w' & Hrun & Hurl & Hrec & Ht & Hl & Ha & _).
  unfold respond. rewrite Hrun. exists conversionId, url, record.
  repeat split; try assumption.
  intros ->. discriminate Hurl.
Qed.

Lemma convert_inline_success_witness :
  jsLength (lettersText 5000) = 5000%N
  /\ exists conversionId audioUrl_ record,
       sent (fst (postConvert calmEnv
                    (inlineRequest (lit "u1") (lettersText 5000)) emptyWorld))
         = resJson (ConvertedJson true conversionId audioUrl_
                      (jsLength (lettersText 5000)) Text
                      (lit "Text successfully converted to audio"))
       /\ audioUrl_ <> []
       /\ conversionsOf
            (snd (postConvert calmEnv
                    (inlineRequest (lit "u1") (lettersText 5000)) emptyWorld))
            (lit "u1") !! conversionId = Some record
       /\ text record = lettersText 5000
       /\ textLength record = jsLength (text record)
       /\ audioUrl record = audioUrl_.
Proof.
  split; [vm_compute; reflexivity|].
  apply (convert_inline_success calmEnv emptyWorld).
  - reflexivity.
  - vm_compute. discriminate.
  - vm_compute. discriminate.
  - vm_compute. reflexivity.
  - intros n. reflexivity.
  - intros n. reflexivity.
  - intros n r. eexists. reflexivity.
Defined.

(** C2. For an inline-text request with a user id and a text that is not
    all white space, the handler answers 400 "Text too long" exactly when
    the text has more than 5000 code units: 5000 pass the check, 5001 are
    rejected (and nothing outside the process is touched). *)
Theorem text_length_boundary (E : Env) (w : World) (userId txt : jsstring) :
  truthy userId = true ->
  allWhiteSpace txt = false ->
  (sent (fst (postConvert E (inlineRequest userId txt) w)) = tooLongResponse
   <-> (5000 < jsLength txt)%N)
  /\ (jsLength txt = 5000%N ->
      sent (fst (postConvert E (inlineRequest userId txt) w))
        <> tooLongResponse)
  /\ (jsLength txt = 5001%N ->
      sent (fst (postConvert E (inlineRequest userId txt) w)) = tooLongResponse
      /\ statusCode (sent (fst (postConvert E (inlineRequest userId txt) w)))
         = 400%N
      /\ snd (postConvert E (inlineRequest userId txt) w) = w).
Proof.
  intros Hu Hws.
  destruct (postConvert_inline E userId txt w Hu Hws) as [-> ->].
  unfold respond.
  assert (Hiff :
    fst (let (s, w') := validateAndConvert E userId txt Text None None w in
         match s with
         | inl error => (convertCatch error, w')
         | inr r => (r, w')
         end) = tooLongResponse <-> (5000 < jsLength txt)%N).
  { rewrite <- N.ltb_lt.
    destruct (5000 <? jsLength txt)%N eqn:Hlen.
    - rewrite validateAndConvert_tooLong by assumption. split; reflexivity.
    - split; [|discriminate].
      destruct (validateAndConvert E userId txt Text None None w)
        as [[e|r] w'] eqn:Hrun; simpl.
      + discriminate.
      + pose proof (validateAndConvert_status E _ _ _ _ _ _ _ _
                      Hws Hlen Hrun) as Hst.
        intros ->. discriminate Hst. }
  split; [exact Hiff|]. split.
  - intros Hlen Hsent. apply Hiff in Hsent. rewrite Hlen in Hsent.
    discriminate Hsent.
  - intros Hlen.
    rewrite validateAndConvert_tooLong
      by (try assumption; rewrite Hlen; reflexivity).
    repeat split.
Qed.

Lemma text_length_boundary_witness :
  jsLength (lettersText 5001) = 5001%N
  /\ sent (fst (postConvert calmEnv
                  (inlineRequest (lit "u1") (lettersText 5001)) emptyWorld))
     = tooLongResponse
  /\ sent (fst (postConvert calmEnv
                  (inlineRequest (lit "u1") (lettersText 5000)) emptyWorld))
     <> tooLongResponse.
Proof.
  assert (H1 : jsLength (lettersText 5001) = 5001%N)
    by (vm_compute; reflexivity).
  assert (H0 : jsLength (lettersText 5000) = 5000%N)
    by (vm_compute; reflexivity).
  split; [exact H1|]. split.
  - destruct (text_length_boundary calmEnv emptyWorld (lit "u1")
                (lettersText 5001) eq_refl) as (_ & _ & Hover).
    + vm_compute. reflexivity.
    + exact (proj1 (Hover H1)).
  - destruct (text_length_boundary calmEnv emptyWorld (lit "u1")
                (lettersText 5000) eq_refl) as (_ & Hat & _).
    + vm_compute. reflexivity.
    + exact (Hat H0).
Defined.

(** C3. Whenever the handler has acquired a text, inline or extracted from
    an upload, and that text is all white space, the answer is 400 "Empty
    text content" whatever the length of the text: the emptiness check
    comes first, so a blank text of more than 5000 code units is not
    reported as too long. *)
Theorem blank_text_is_empty_content (E : Env) (w w1 : World)
    (req : ConvertRequest) (userId t : jsstring) (it : InputType)
    (ofn ofu : option jsstring) :
  uploadSingle req = inr req ->
  body_userId req = Some userId -> truthy userId = true ->
  acquireText E userId req w = (inr (Content t it ofn ofu), w1) ->
  allWhiteSpace t = true ->
  sent (fst (postConvert E req w)) = emptyContentResponse
  /\ statusCode (sent (fst (postConvert E req w))) = 400%N
  /\ sent (fst (postConvert E req w)) <> tooLongResponse
  /\ snd (postConvert E req w) = w1.
Proof.
  intros Hup Hb Hu Hacq Hws.
  assert (Hsent : sent (fst (postConvert E req w)) = emptyContentResponse
                  /\ snd (postConvert E req w) = w1).
  { unfold postConvert. rewrite Hup.
    destruct (convertHandler_sent E req w) as [-> ->].
    unfold respond.
    rewrite (convertTry_acquired E req userId w t it ofn ofu w1 Hb Hu Hacq).
    rewrite validateAndConvert_blank by exact Hws. split; reflexivity. }
  destruct Hsent as [Hsent Hw]. rewrite Hsent.
  repeat split; [discriminate | exact Hw].
Qed.

Lemma blank_text_is_empty_content_witness :
  (5000 < jsLength (spacesText 5001))%N
  /\ sent (fst (postConvert calmEnv
                  (inlineRequest (lit "u1") (spacesText 5001)) emptyWorld))
     = emptyContentResponse
  /\ statusCode
       (sent (fst (postConvert calmEnv
                     (inlineRequest (lit "u1") (spacesText 5001)) emptyWorld)))
     = 400%N
  /\ sent (fst (postConvert calmEnv
                  (inlineRequest (lit "u1") (spacesText 5001)) emptyWorld))
     <> tooLongResponse
  /\ snd (postConvert calmEnv
            (inlineRequest (lit "u1") (spacesText 5001)) emptyWorld)
     = emptyWorld.
Proof.
  split; [vm_compute; reflexivity|].
  apply (blank_text_is_empty_content calmEnv emptyWorld emptyWorld
           (inlineRequest (lit "u1") (spacesText 5001)) (lit "u1")
           (spacesText 5001) Text None None).
  - reflexivity.
  - reflexivity.
  - reflexivity.
  - apply acquireText_inline. vm_compute. reflexivity.
  - vm_compute. reflexivity.
Defined.

(** C9. With a user id, no file and [text] equal to the empty string, the
    answer is 400 "No text or file provided", not "Empty text content":
    the run is the one of a request without a [text] field. *)
Theorem empty_text_is_no_content (E : Env) (w : World) (userId : jsstring) :
  truthy userId = true ->
  sent (fst (postConvert E (inlineRequest userId []) w)) = noContentResponse
  /\ noContentResponse <> emptyContentResponse
  /\ postConvert E (inlineRequest userId []) w
     = postConvert E {| body_userId := Some userId; body_text := None;
                        file := None |} w
  /\ snd (postConvert E (inlineRequest userId []) w) = w.
Proof.
  intros Hu.
  assert (Hrun : forall o, truthyOpt o = false ->
            postConvert E {| body_userId := Some userId; body_text := o;
                             file := None |} w
            = ({| sent := noContentResponse;
                  cleanupEntered := fst convertFinally;
                  completion := snd convertFinally |}, w)).
  { intros o Ho. unfold postConvert. cbn [uploadSingle file].
    unfold convertHandler, respond, convertTry. cbn [body_userId truthyOpt].
    rewrite Hu. change (negb true) with false. cbv iota.
    unfold bind, acquireText. cbn [file body_text]. rewrite Ho.
    reflexivity. }
  unfold inlineRequest. rewrite !Hrun by reflexivity.
  repeat split. discriminate.
Qed.

Lemma empty_text_is_no_content_witness :
  sent (fst (postConvert calmEnv (inlineRequest (lit "u1") []) emptyWorld))
    = noContentResponse
  /\ noContentResponse <> emptyContentResponse
  /\ postConvert calmEnv (inlineRequest (lit "u1") []) emptyWorld
     = postConvert calmEnv {| body_userId := Some (lit "u1");
                              body_text := None; file := None |} emptyWorld
  /\ snd (postConvert calmEnv (inlineRequest (lit "u1") []) emptyWorld)
     = emptyWorld.
Proof.
  exact (empty_text_is_no_content calmEnv emptyWorld (lit "u1") eq_refl).
Defined.

(** C10. [tempFilePath] is bound nowhere in the scope of the [finally]
    block; on every run of the handler the body of the cleanup branch is
    not entered, and the guard, evaluated once the response of the
    [try]/[catch] has been sent, throws a ReferenceError out of the
    handler. *)
Theorem cleanup_guard_throws (E : Env) (req : ConvertRequest) (w : World) :
  ~ In "tempFilePath"%string convertFinallyScope
  /\ cleanupEntered (fst (convertHandler E req w)) = false
  /\ completion (fst (convertHandler E req w))
     = Threw (ReferenceError (lit "tempFilePath is not defined"))
  /\ completion (fst (convertHandler E req w)) <> Returned
  /\ sent (fst (convertHandler E req w))
     = fst (respond (convertTry E req) convertCatch w).
Proof.
  split.
  - unfold convertFinallyScope. simpl. intros H.
    repeat (destruct H as [H|H]; [discriminate H|]). exact H.
  - unfold convertHandler.
    destruct (respond (convertTry E req) convertCatch w) as [r w'].
    repeat split. discriminate.
Qed.

(** C4 fails on the status: a file part of type [image/png] is turned down
    by the upload layer before the handler runs, nothing is extracted or
    stored, but the error-handling middleware answers 500 "Internal server
    error", not 400. *)
Theorem wrong_file_type_answers_500 (E : Env) (w : World)
    (userId txt : option jsstring) (name : jsstring) (buf : Buffer) :
  postConvert E
    {| body_userId := userId; body_text := txt;
       file := Some {| mimetype := lit "image/png"; originalname := name;
                       buffer := buf |} |} w
  = ({| sent := statusJson 500%N
                  (ErrorJson (lit "Internal server error")
                     (Some (lit "Only PDF and TXT files are allowed")));
        cleanupEntered := false;
        completion := Returned |}, w).
Proof. reflexivity. Qed.

(** X19. The sibling path: a file of an allowed type over the size limit
    is answered with 400 "File too large" by the error-handling middleware;
    the handler does not run and nothing changes outside the process. *)
Lemma oversized_file_answers_400 (E : Env) (w : World) (req : ConvertRequest)
    (f : FilePart) :
  file req = Some f ->
  includes allowedTypes (mimetype f) = true ->
  (fileSize < N.of_nat (length (buffer f)))%N ->
  postConvert E req w
  = ({| sent := statusJson 400%N
                  (ErrorJson (lit "File too large. Maximum size is 10MB.") None);
        cleanupEntered := false;
        completion := Returned |}, w).
Proof.
  intros Hf Hty Hsz. unfold postConvert, uploadSingle, fileFilter.
  rewrite Hf, Hty. apply N.ltb_lt in Hsz. rewrite Hsz. reflexivity.
Qed.

(** ** Artifact names *)

Lemma truthy_publicUrlOf (fileName : jsstring) :
  truthy (publicUrlOf fileName) = true.
Proof. reflexivity. Qed.

(** C8. For a base name without ['/'], the URL [uploadFile] returns for
    [audio/{base}] or [uploads/{base}] ends in the segment [base], and the
    names the DELETE handler rebuilds from the stored URLs (last segment,
    prefixed again with the folder) are the names the artifacts were stored
    under. *)
Theorem artifact_name_round_trip (E : Env) (w : World) (buf : Buffer)
    (ct baseA baseU : jsstring) :
  ~ In slash baseA -> ~ In slash baseU ->
  storageFault E (tick w) = None -> storageFault E (S (tick w)) = None ->
  exists urlA urlU wA wU,
    uploadFile E (lit "audio/" ++ baseA) buf ct w = (inr urlA, wA)
    /\ uploadFile E (lit "uploads/" ++ baseU) buf ct w = (inr urlU, wU)
    /\ is_Some (bucket wA !! (lit "audio/" ++ baseA))
    /\ is_Some (bucket wU !! (lit "uploads/" ++ baseU))
    /\ pop (split slash urlA) = Some baseA
    /\ pop (split slash urlU) = Some baseU
    /\ forall c : Conversion,
         audioUrl c = urlA -> originalFileUrl c = Some urlU ->
         filesToDelete c = [lit "uploads/" ++ baseU; lit "audio/" ++ baseA].
Proof.
  intros HA HU H0 H1.
  assert (HpA : pop (split slash (publicUrlOf (lit "audio/" ++ baseA)))
                = Some baseA)
    by exact (pop_publicUrlOf (lit "audio") baseA HA).
  assert (HpU : pop (split slash (publicUrlOf (lit "uploads/" ++ baseU)))
                = Some baseU)
    by exact (pop_publicUrlOf (lit "uploads") baseU HU).
  eexists _, _, _, _.
  split; [apply uploadFile_run; assumption|].
  split; [apply uploadFile_run; assumption|].
  split; [cbn [bucket]; rewrite lookup_insert_eq; eauto|].
  split; [cbn [bucket]; rewrite lookup_insert_eq; eauto|].
  split; [exact HpA|]. split; [exact HpU|].
  intros c Ha Ho. unfold filesToDelete. rewrite Ha, Ho.
  cbn [truthyOpt default from_option id]. rewrite !truthy_publicUrlOf.
  rewrite HpA, HpU. reflexivity.
Qed.

Lemma artifact_name_round_trip_witness :
  ~ In slash (lit "audio_u1_1700000000002_4fzyo8.mp3")
  /\ ~ In slash (lit "original_u1_1700000000000_4fzyo8.txt")
  /\ exists urlA urlU wA wU,
       uploadFile calmEnv
         (lit "audio/" ++ lit "audio_u1_1700000000002_4fzyo8.mp3")
         [x49; x44; x33] (lit "audio/mpeg") emptyWorld = (inr urlA, wA)
       /\ uploadFile calmEnv
            (lit "uploads/" ++ lit "original_u1_1700000000000_4fzyo8.txt")
            [x49; x44; x33] (lit "audio/mpeg") emptyWorld = (inr urlU, wU)
       /\ is_Some (bucket wA !!
                     (lit "audio/" ++ lit "audio_u1_1700000000002_4fzyo8.mp3"))
       /\ is_Some (bucket wU !!
                     (lit "uploads/"
                        ++ lit "original_u1_1700000000000_4fzyo8.txt"))
       /\ pop (split slash urlA)
          = Some (lit "audio_u1_1700000000002_4fzyo8.mp3")
       /\ pop (split slash urlU)
          = Some (lit "original_u1_1700000000000_4fzyo8.txt")
       /\ forall c : Conversion,
            audioUrl c = urlA -> originalFileUrl c = Some urlU ->
            filesToDelete c
            = [lit "uploads/" ++ lit "original_u1_1700000000000_4fzyo8.txt";
               lit "audio/" ++ lit "audio_u1_1700000000002_4fzyo8.mp3"].
Proof.
  assert (HA : ~ In slash (lit "audio_u1_1700000000002_4fzyo8.mp3"))
    by (vm_compute; intuition discriminate).
  assert (HU : ~ In slash (lit "original_u1_1700000000000_4fzyo8.txt"))
    by (vm_compute; intuition discriminate).
  split; [exact HA|]. split; [exact HU|].
  exact (artifact_name_round_trip calmEnv emptyWorld [x49; x44; x33]
           (lit "audio/mpeg") _ _ HA HU eq_refl eq_refl).
Defined.

(** The record of the sample world is taken apart into the two names its
    artifacts were stored under. *)
Example filesToDelete_sampleRecord :
  filesToDelete sampleRecord
  = [lit "uploads/original_u1_1700000000000_4fzyo8.txt";
     lit "audio/audio_u1_1700000000002_4fzyo8.mp3"].
Proof. vm_compute. reflexivity. Qed.

(** A base name with a ['/'] (a user id may hold one) does not survive the
    round trip: only its last segment comes back. *)
Example filesToDelete_slash_in_base :
  pop (split slash (publicUrlOf (lit "audio/audio_a/b_17_4fzyo8.mp3")))
  = Some (lit "b_17_4fzyo8.mp3").
Proof. vm_compute. reflexivity. Qed.

(** ** The invariant of the record store *)

Lemma storeWf_emptyWorld : storeWf emptyWorld.
Proof.
  intros u k d. unfold conversionsOf, emptyWorld. simpl.
  rewrite lookup_empty. simpl. rewrite lookup_empty. discriminate.
Qed.

(** [saveConversion] keeps every record listed under its document id. *)
Lemma saveConversion_storeWf (E : Env) (userId : jsstring)
    (conversionData : Conversion) (w : World) :
  storeWf w -> storeWf (snd (saveConversion E userId conversionData w)).
Proof.
  intros Hwf. unfold saveConversion, docSet. rewrite rethrow_id.
  unfold bind at 1, nextTick. unfold bind at 1 2.
  rewrite firestoreCall_run. cbn [tick].
  destruct (firestoreFault E (S (tick w))); [exact Hwf|].
  intros u k d. unfold conversionsOf. simpl.
  destruct (decide (userId = u)) as [<-|Hne].
  - rewrite lookup_insert_eq. simpl.
    destruct (decide (autoId E (tick w) = k)) as [<-|Hk].
    + rewrite lookup_insert_eq. intros [= <-]. reflexivity.
    + rewrite lookup_insert_ne by exact Hk. apply (Hwf userId).
  - rewrite lookup_insert_ne by exact Hne. apply (Hwf u).
Qed.

(** [deleteConversion] keeps it too. *)
Lemma deleteConversion_storeWf (E : Env) (userId conversionId : jsstring)
    (w : World) :
  storeWf w -> storeWf (snd (deleteConversion E userId conversionId w)).
Proof.
  intros Hwf. rewrite deleteConversion_run.
  destruct (firestoreFault E (tick w)); [exact Hwf|].
  intros u k d. unfold conversionsOf. simpl.
  destruct (decide (userId = u)) as [<-|Hne].
  - rewrite lookup_insert_eq. simpl.
    intros [_ Hk]%lookup_delete_Some. apply (Hwf userId). exact Hk.
  - rewrite lookup_insert_ne by exact Hne. apply (Hwf u).
Qed.

(** ** Runs on the sample worlds *)

(** An uploaded text file whose content is blank is answered "Empty text
    content"; the original, stored before the validation, stays in the
    bucket. *)
Example blank_upload_is_empty_content :
  sent (fst (postConvert blankFileEnv textFileRequest emptyWorld))
    = emptyContentResponse
  /\ bucket (snd (postConvert blankFileEnv textFileRequest emptyWorld))
       !! lit "uploads/original_u1_1700000000000_4fzyo8.txt"
     = Some {| content := [x20; x0a]; contentType := lit "text/plain";
               public := true |}.
Proof. split; vm_compute; reflexivity. Qed.

(** With Cloud Storage down the deletion of the sample record still goes
    through, and the listing of the user is empty afterwards. *)
Example delete_with_storage_down :
  fst (deleteConversionRoute storageDownEnv (lit "u1") (lit "c1")
         orphanedRecordWorld) = deletedResponse (lit "c1")
  /\ fst (getConversionsRoute storageDownEnv (lit "u1")
            (snd (deleteConversionRoute storageDownEnv (lit "u1") (lit "c1")
                    orphanedRecordWorld)))
     = resJson (ConversionsJson true 0%N []).
Proof. split; vm_compute; reflexivity. Qed.

(** * Further properties of the code *)

(** ** Generated names *)

Lemma lit_cons (a : ascii) (s : string) :
  lit (String a s) = N_of_ascii a :: lit s.
Proof. reflexivity. Qed.

Lemma N_of_ascii_inj (a b : ascii) : N_of_ascii a = N_of_ascii b -> a = b.
Proof.
  intros H. rewrite <- (ascii_N_embedding a), <- (ascii_N_embedding b).
  rewrite H. reflexivity.
Qed.

Lemma lit_inj (s1 s2 : string) : lit s1 = lit s2 -> s1 = s2.
Proof.
  revert s2. induction s1 as [|a s1 IH]; intros [|b s2]; try discriminate.
  - reflexivity.
  - rewrite !lit_cons. intros [= Ha Hs].
    apply N_of_ascii_inj in Ha. apply IH in Hs. congruence.
Qed.

Lemma numberToString_inj (m n : N) :
  numberToString m = numberToString n -> m = n.
Proof.
  unfold numberToString. intros H%lit_inj.
  apply Unsigned.to_uint_inj.
  assert (Hs : Some (N.to_uint m) = Some (N.to_uint n))
    by (rewrite <- !NilEmpty.usu, H; reflexivity).
  congruence.
Qed.

(** [String(n)] holds decimal digits only. *)
Lemma numberToString_digits (n c : N) :
  In c (numberToString n) -> (48 <= c <= 57)%N.
Proof.
  unfold numberToString. generalize (N.to_uint n). intros d.
  induction d; cbn [NilEmpty.string_of_uint]; try rewrite lit_cons;
    (intros [<-|H]; [vm_compute; split; discriminate | auto])
    || (intros []).
Qed.

Lemma numberToString_without (n sep : N) :
  (sep < 48 \/ 57 < sep)%N -> ~ In sep (numberToString n).
Proof.
  intros Hsep Hin. apply numberToString_digits in Hin. lia.
Qed.

(** Two strings that agree up to and past a separator that neither head
    holds have the same head and the same tail. *)
Lemma app_sep_inj (sep : N) (a b x y : jsstring) :
  ~ In sep a -> ~ In sep b ->
  a ++ sep :: x = b ++ sep :: y -> a = b /\ x = y.
Proof.
  revert b. induction a as [|c a IH]; intros [|d b] Ha Hb; simpl.
  - intros [= ->]. split; reflexivity.
  - intros [= <- _]. exfalso. apply Hb. left. reflexivity.
  - intros [= -> _]. exfalso. apply Ha. left. reflexivity.
  - intros [= -> H]. apply IH in H as [-> ->].
    + split; reflexivity.
    + intros Hin. apply Ha. right. exact Hin.
    + intros Hin. apply Hb. right. exact Hin.
Qed.

(** X1. For one user and one type tag, two generated names are equal
    exactly when the two clock readings and the two random suffixes are:
    a different millisecond alone makes the names differ. *)
Theorem generateFileName_collision (E : Env) (userId type : jsstring)
    (w1 w2 : World) :
  fst (generateFileName E userId type w1)
    = fst (generateFileName E userId type w2)
  <-> dateNow E (tick w1) = dateNow E (tick w2)
      /\ substring 2 8 (mathRandom36 E (S (tick w1)))
         = substring 2 8 (mathRandom36 E (S (tick w2))).
Proof.
  rewrite !generateFileName_run. cbn [fst]. split.
  - intros H. apply (inj inr) in H.
    do 4 apply app_inv_head in H.
    change (lit "_" ++ ?r) with (95%N :: r) in H.
    apply app_sep_inj in H as [Hn Hr];
      try (apply numberToString_without; right; reflexivity).
    split; [exact (numberToString_inj _ _ Hn) | exact Hr].
  - intros [-> ->]. reflexivity.
Qed.

(** ** tts.js *)

Lemma split_head (sep : N) (a s : jsstring) :
  ~ In sep a -> split sep (a ++ sep :: s) = a :: split sep s.
Proof.
  induction a as [|c a IH]; intros Ha; simpl.
  - rewrite N.eqb_refl. reflexivity.
  - destruct (N.eqb_spec c sep) as [->|Hne].
    + exfalso. apply Ha. left. reflexivity.
    + rewrite IH; [reflexivity|]. intros Hin. apply Ha. right. exact Hin.
Qed.

Lemma convertTextToAudio_run (E : Env) (text fileName voiceName : jsstring) w :
  convertTextToAudio E text fileName voiceName w
  = (match synthesizeSpeech E (tick w) (requestFor text voiceName) with
     | inl e => inl e
     | inr audioContent => inr audioContent
     end, ticked w).
Proof.
  unfold convertTextToAudio. rewrite rethrow_id.
  unfold bind, nextTick. fold (requestFor text voiceName).
  destruct (synthesizeSpeech E (tick w) (requestFor text voiceName));
    reflexivity.
Qed.

(** X2. For a voice name [{lang}-{region}-{rest}] the request sent to the
    synthesis service carries the language code [{lang}-{region}], the
    voice name as given, MP3 encoding, pitch 0, rate 1 and the one effects
    profile; what the service answers, audio or error, is passed on
    unchanged and nothing is stored. *)
Theorem convertTextToAudio_request (E : Env) (text fileName : jsstring)
    (lang region rest : jsstring) (w : World) :
  ~ In hyphen lang -> ~ In hyphen region ->
  convertTextToAudio E text fileName
    (lang ++ lit "-" ++ region ++ lit "-" ++ rest) w
  = (match synthesizeSpeech E (tick w)
             {| input_text := text;
                voice_name := lang ++ lit "-" ++ region ++ lit "-" ++ rest;
                voice_languageCode := lang ++ lit "-" ++ region;
                audioEncoding := lit "MP3";
                effectsProfileId :=
                  [lit "small-bluetooth-speaker-class-device"];
                pitch := 0%N;
                speakingRate := 1%N |} with
     | inl e => inl e
     | inr audioContent => inr audioContent
     end, ticked w).
Proof.
  intros Hl Hr. rewrite convertTextToAudio_run. unfold requestFor.
  change (lit "-") with [hyphen]. cbn [app].
  rewrite (split_head hyphen lang _ Hl), (split_head hyphen region _ Hr).
  reflexivity.
Qed.

Lemma convertTextToAudio_request_witness :
  defaultVoice = lit "en" ++ lit "-" ++ lit "US" ++ lit "-" ++ lit "Wavenet-D"
  /\ convertTextToAudio calmEnv (lit "hello") (lit "audio/a.mp3")
       (lit "en" ++ lit "-" ++ lit "US" ++ lit "-" ++ lit "Wavenet-D")
       emptyWorld
     = (match synthesizeSpeech calmEnv (tick emptyWorld)
                {| input_text := lit "hello";
                   voice_name :=
                     lit "en" ++ lit "-" ++ lit "US" ++ lit "-"
                       ++ lit "Wavenet-D";
                   voice_languageCode := lit "en" ++ lit "-" ++ lit "US";
                   audioEncoding := lit "MP3";
                   effectsProfileId :=
                     [lit "small-bluetooth-speaker-class-device"];
                   pitch := 0%N;
                   speakingRate := 1%N |} with
        | inl e => inl e
        | inr audioContent => inr audioContent
        end, ticked emptyWorld).
Proof.
  split; [reflexivity|].
  apply convertTextToAudio_request.
  - vm_compute. intuition discriminate.
  - vm_compute. intuition discriminate.
Defined.

(** ** What a computation leaves alone *)

Section Frames.

Variable R : World -> World -> Prop.
Hypothesis R_trans : forall w1 w2 w3, R w1 w2 -> R w2 w3 -> R w1 w3.
Hypothesis R_same : forall w w', sameStores w w' -> R w w'.

Variable E : Env.

Lemma R_refl w : R w w.
Proof. apply R_same. split; reflexivity. Qed.

Lemma keeps_ret {A : Type} (a : A) : keeps R (ret a).
Proof. intros w. apply R_refl. Qed.

Lemma keeps_throw {A : Type} (e : JsError) : keeps R (@throw A e).
Proof. intros w. apply R_refl. Qed.

Lemma keeps_bind {A B : Type} (m : M A) (k : A -> M B) :
  keeps R m -> (forall a, keeps R (k a)) -> keeps R (bind m k).
Proof.
  intros Hm Hk w. specialize (Hm w). unfold bind.
  destruct (m w) as [[e|a] w1]; simpl in *; [exact Hm|].
  exact (R_trans _ _ _ Hm (Hk a w1)).
Qed.

Lemma keeps_tryCatch {A : Type} (m : M A) (h : JsError -> M A) :
  keeps R m -> (forall e, keeps R (h e)) -> keeps R (tryCatch m h).
Proof.
  intros Hm Hh w. specialize (Hm w). unfold tryCatch.
  destruct (m w) as [[e|a] w1]; simpl in *; [|exact Hm].
  exact (R_trans _ _ _ Hm (Hh e w1)).
Qed.

Lemma keeps_rethrow {A : Type} (m : M A) : keeps R m -> keeps R (rethrow m).
Proof. intros Hm w. rewrite rethrow_id. apply Hm. Qed.

Lemma keeps_nextTick : keeps R nextTick.
Proof. intros w. apply R_same. split; reflexivity. Qed.

Lemma keeps_getWorld : keeps R getWorld.
Proof. intros w. apply R_refl. Qed.

Lemma keeps_firestoreCall : keeps R (firestoreCall E).
Proof.
  apply keeps_bind; [apply keeps_nextTick|]. intros t.
  destruct (firestoreFault E t); [apply keeps_throw | apply keeps_ret].
Qed.

Lemma keeps_storageCall : keeps R (storageCall E).
Proof.
  apply keeps_bind; [apply keeps_nextTick|]. intros t.
  destruct (storageFault E t); [apply keeps_throw | apply keeps_ret].
Qed.

Lemma keeps_generateFileName userId type :
  keeps R (generateFileName E userId type).
Proof. intros w. apply R_same. split; reflexivity. Qed.

Lemma keeps_extractTextFromBuffer buf mime :
  keeps R (extractTextFromBuffer E buf mime).
Proof.
  apply keeps_rethrow.
  destruct (strictEq mime (lit "application/pdf")).
  - destruct (pdf E buf); [apply keeps_throw | apply keeps_ret].
  - destruct (strictEq mime (lit "text/plain"));
      [apply keeps_ret | apply keeps_throw].
Qed.

Lemma keeps_convertTextToAudio text fileName voiceName :
  keeps R (convertTextToAudio E text fileName voiceName).
Proof.
  intros w. rewrite convertTextToAudio_run. apply R_same.
  split; reflexivity.
Qed.

Lemma keeps_getConversions userId : keeps R (getConversions E userId).
Proof.
  intros w. rewrite getConversions_run. apply R_same.
  destruct (firestoreFault E (tick w)); split; reflexivity.
Qed.

(** *** The /convert handler, given what a write does to the relation *)

Hypothesis R_put : forall w name obj t,
  R w {| firestore := firestore w;
         bucket := <[name := obj]> (bucket w);
         tick := t |}.

Variable userId : jsstring.

Hypothesis R_save : forall w docId d t,
  id_ d = Some docId ->
  R w {| firestore :=
           <[userId := <[docId := d]> (conversionsOf w userId)]> (firestore w);
         bucket := bucket w;
         tick := t |}.

Lemma keeps_uploadFile fileName buf ct : keeps R (uploadFile E fileName buf ct).
Proof.
  apply keeps_rethrow. apply keeps_bind.
  - apply keeps_bind; [apply keeps_storageCall|]. intros _ w. apply R_put.
  - intros _. apply keeps_bind; [|intros; apply keeps_ret].
    apply keeps_bind; [apply keeps_storageCall|]. intros _ w.
    unfold bind, getWorld.
    destruct (bucket w !! fileName); [apply R_put | apply R_refl].
Qed.

Lemma keeps_convertAndSaveAudio text fileName voiceName :
  keeps R (convertAndSaveAudio E text fileName voiceName).
Proof.
  apply keeps_rethrow.
  apply keeps_bind; [apply keeps_convertTextToAudio|]. intros audio.
  apply keeps_bind; [|intros; apply keeps_ret].
  apply keeps_rethrow.
  apply keeps_bind; [apply keeps_uploadFile | intros; apply keeps_ret].
Qed.

Lemma keeps_saveConversion conversionData :
  keeps R (saveConversion E userId conversionData).
Proof.
  apply keeps_rethrow.
  apply keeps_bind; [apply keeps_nextTick|]. intros t.
  apply keeps_bind; [|intros; apply keeps_ret].
  apply keeps_bind; [apply keeps_firestoreCall|]. intros _.
  apply keeps_bind; [apply keeps_nextTick|]. intros t'.
  intros w. apply R_save. reflexivity.
Qed.

Lemma keeps_validateAndConvert textContent inputType ofn ofu :
  keeps R (validateAndConvert E userId textContent inputType ofn ofu).
Proof.
  unfold validateAndConvert.
  destruct (negb (truthy (trim textContent))); [apply keeps_ret|].
  destruct (5000 <? jsLength textContent)%N; [apply keeps_ret|].
  apply keeps_bind; [apply keeps_generateFileName|]. intros name.
  apply keeps_bind; [apply keeps_convertAndSaveAudio|]. intros audioResult.
  apply keeps_bind.
  { apply keeps_bind; [apply keeps_nextTick | intros; apply keeps_ret]. }
  intros now.
  apply keeps_bind; [apply keeps_saveConversion | intros; apply keeps_ret].
Qed.

Lemma keeps_acquireText req : keeps R (acquireText E userId req).
Proof.
  unfold acquireText. destruct (file req) as [f|].
  - apply keeps_bind; [apply keeps_extractTextFromBuffer|]. intros t.
    apply keeps_bind; [apply keeps_generateFileName|]. intros name.
    apply keeps_bind; [apply keeps_uploadFile | intros; apply keeps_ret].
  - destruct (truthyOpt (body_text req)); apply keeps_ret.
Qed.

Lemma keeps_postConvert req w :
  requestUser req = userId ->
  R w (snd (postConvert E req w)).
Proof.
  intros Hu. unfold postConvert.
  destruct (uploadSingle req) as [e|req'] eqn:Hup; [apply R_refl|].
  assert (Hreq : requestUser req' = userId).
  { rewrite <- Hu. unfold uploadSingle in Hup.
    destruct (file req) as [f|]; [|congruence].
    destruct (fileFilter f) as [e|[|]]; [discriminate| |].
    - destruct (_ <? _)%N; [discriminate|congruence].
    - injection Hup as <-. reflexivity. }
  destruct (convertHandler_sent E req' w) as [_ ->].
  assert (Hsnd : forall m h w0,
            snd (respond m h w0) = snd (m w0)).
  { intros m h w0. unfold respond. destruct (m w0) as [[e|r] w1]; reflexivity. }
  rewrite Hsnd. unfold convertTry.
  destruct (negb (truthyOpt (body_userId req'))); [apply R_refl|].
  fold (requestUser req'). rewrite Hreq.
  apply keeps_bind; [apply keeps_acquireText|].
  intros [r|t it ofn ofu]; [apply keeps_ret | apply keeps_validateAndConvert].
Qed.

End Frames.

Lemma conversionsOf_same (w w' : World) (u : jsstring) :
  firestore w' = firestore w -> conversionsOf w' u = conversionsOf w u.
Proof. unfold conversionsOf. intros ->. reflexivity. Qed.

Lemma storeWf_same (w w' : World) :
  firestore w' = firestore w -> storeWf w -> storeWf w'.
Proof.
  intros Hfs Hwf u k d. rewrite (conversionsOf_same w w' u Hfs). apply Hwf.
Qed.

Lemma storeWf_save (w : World) (userId docId : jsstring) (d : Conversion)
    (b : gmap jsstring StoredObject) (t : nat) :
  id_ d = Some docId -> storeWf w ->
  storeWf {| firestore :=
               <[userId := <[docId := d]> (conversionsOf w userId)]>
                 (firestore w);
             bucket := b; tick := t |}.
Proof.
  intros Hid Hwf u k d'. unfold conversionsOf at 1. cbn [firestore].
  destruct (decide (userId = u)) as [<-|Hne].
  - rewrite lookup_insert_eq. cbn [default from_option id].
    destruct (decide (docId = k)) as [<-|Hk].
    + rewrite lookup_insert_eq. intros [= <-].
      unfold withDocId. cbn [id_ snd fst]. rewrite Hid. reflexivity.
    + rewrite lookup_insert_ne by exact Hk. apply (Hwf userId).
  - rewrite lookup_insert_ne by exact Hne. apply (Hwf u).
Qed.

(** X3. Whatever a POST /convert request does and however it ends, the
    records of every other user are as they were. *)
Theorem postConvert_other_users (E : Env) (req : ConvertRequest) (w : World)
    (u : jsstring) :
  u <> requestUser req ->
  conversionsOf (snd (postConvert E req w)) u = conversionsOf w u.
Proof.
  revert u.
  change (otherUsersKept (requestUser req) w (snd (postConvert E req w))).
  apply (keeps_postConvert (otherUsersKept (requestUser req)))
    with (userId := requestUser req).
  - intros w1 w2 w3 H12 H23 v Hv. rewrite (H23 v Hv). apply H12, Hv.
  - intros w1 w2 [Hfs _] v Hv. apply conversionsOf_same, Hfs.
  - intros w1 name obj t v Hv. reflexivity.
  - intros w1 docId d t Hid v Hv. unfold conversionsOf at 1. cbn [firestore].
    rewrite lookup_insert_ne by congruence. reflexivity.
  - reflexivity.
Qed.

Lemma postConvert_other_users_witness :
  lit "u1" <> requestUser (inlineRequest (lit "u2") (lit "hello"))
  /\ conversionsOf
       (snd (postConvert calmEnv (inlineRequest (lit "u2") (lit "hello"))
               orphanedRecordWorld)) (lit "u1")
     = conversionsOf orphanedRecordWorld (lit "u1").
Proof.
  assert (Hne : lit "u1" <> requestUser (inlineRequest (lit "u2") (lit "hello")))
    by (vm_compute; discriminate).
  split; [exact Hne|].
  exact (postConvert_other_users calmEnv _ orphanedRecordWorld _ Hne).
Defined.

(** X4. A POST /convert request never removes an object from the bucket,
    however it ends: it only adds objects (or replaces one under a name it
    generated). *)
Theorem postConvert_keeps_objects (E : Env) (req : ConvertRequest) (w : World)
    (name : jsstring) :
  is_Some (bucket w !! name) ->
  is_Some (bucket (snd (postConvert E req w)) !! name).
Proof.
  revert name.
  change (objectsKept w (snd (postConvert E req w))).
  apply (keeps_postConvert objectsKept) with (userId := requestUser req).
  - intros w1 w2 w3 H12 H23 name Hn. apply H23, H12, Hn.
  - intros w1 w2 [_ Hb] name Hn. rewrite Hb. exact Hn.
  - intros w1 name obj t n Hn. cbn [bucket].
    rewrite lookup_insert_is_Some.
    destruct (decide (name = n)); [left; assumption | right; split; assumption].
  - intros w1 docId d t Hid name Hn. exact Hn.
  - reflexivity.
Qed.

Lemma postConvert_keeps_objects_witness :
  is_Some (bucket fullRecordWorld !! lit "audio/other.mp3")
  /\ is_Some
       (bucket (snd (postConvert calmEnv textFileRequest fullRecordWorld))
          !! lit "audio/other.mp3").
Proof.
  assert (H : is_Some (bucket fullRecordWorld !! lit "audio/other.mp3"))
    by (vm_compute; eauto).
  split; [exact H|].
  exact (postConvert_keeps_objects calmEnv textFileRequest fullRecordWorld
           _ H).
Defined.

(** ** Deleting files *)

Lemma deleteFile_run (E : Env) (fileName : jsstring) (w : World) :
  deleteFile E fileName w
  = match storageFault E (tick w) with
    | Some e => (inl e, ticked w)
    | None =>
        match bucket w !! fileName with
        | None => (inl (noSuchObject fileName), ticked w)
        | Some _ =>
            (inr true,
             {| firestore := firestore w;
                bucket := delete fileName (bucket w);
                tick := S (tick w) |})
        end
    end.
Proof.
  unfold deleteFile, fileDelete. rewrite rethrow_id.
  unfold bind at 1 2. rewrite storageCall_run.
  destruct (storageFault E (tick w)); [reflexivity|].
  unfold bind, getWorld. simpl.
  destruct (bucket w !! fileName); reflexivity.
Qed.

Lemma deleteFiles_cons (E : Env) (f : jsstring) (files : list jsstring) w :
  deleteFiles E (f :: files) w
  = deleteFiles E files (snd (deleteFile E f w)).
Proof.
  unfold deleteFiles. simpl. unfold bind at 1, tryCatch, bind at 1.
  destruct (deleteFile E f w) as [[e|b] w1]; reflexivity.
Qed.

(** The loop of the DELETE route on the bucket: an object that is left is
    as it was, a name off the list is not touched, and the clock of reads
    only moves on. *)
Lemma deleteFiles_bucket (E : Env) (files : list jsstring) (w : World) :
  (forall name,
      is_Some (bucket (snd (deleteFiles E files w)) !! name) ->
      bucket (snd (deleteFiles E files w)) !! name = bucket w !! name)
  /\ (forall name,
         ~ In name files ->
         bucket (snd (deleteFiles E files w)) !! name = bucket w !! name)
  /\ tick w <= tick (snd (deleteFiles E files w)).
Proof.
  revert w. induction files as [|f files IH]; intros w.
  - repeat split; auto.
  - rewrite deleteFiles_cons.
    destruct (IH (snd (deleteFile E f w))) as (Hleft & Hoff & Htick).
    assert (Hstep :
      (forall name, is_Some (bucket (snd (deleteFile E f w)) !! name) ->
                    bucket (snd (deleteFile E f w)) !! name = bucket w !! name)
      /\ (forall name, name <> f ->
                       bucket (snd (deleteFile E f w)) !! name
                       = bucket w !! name)
      /\ tick w <= tick (snd (deleteFile E f w))).
    { rewrite deleteFile_run.
      destruct (storageFault E (tick w));
        [repeat split; simpl; auto|].
      destruct (bucket w !! f) eqn:Hf; [|repeat split; simpl; auto].
      cbn [snd bucket tick]. repeat split; [| |lia].
      - intros name [o Ho]. rewrite Ho.
        apply lookup_delete_Some in Ho as [_ Ho]. congruence.
      - intros name Hne. apply lookup_delete_ne. congruence. }
    destruct Hstep as (Hleft1 & Hoff1 & Htick1).
    repeat split.
    + intros name Hn. rewrite (Hleft name Hn). apply Hleft1.
      rewrite <- (Hleft name Hn). exact Hn.
    + intros name Hn. rewrite Hoff, Hoff1; [reflexivity| |].
      * intros ->. apply Hn. left. reflexivity.
      * intros Hin. apply Hn. right. exact Hin.
    + lia.
Qed.

Lemma deleteFiles_firestore (E : Env) (files : list jsstring) (w : World) :
  firestore (snd (deleteFiles E files w)) = firestore w.
Proof.
  destruct (deleteFiles_total E files w) as (w1 & -> & Hfs). exact Hfs.
Qed.

(** Every name the DELETE route tries lies in one of the two folders. *)
Lemma filesToDelete_folders (c : Conversion) (name : jsstring) :
  In name (filesToDelete c) ->
  lit "uploads/" `prefix_of` name \/ lit "audio/" `prefix_of` name.
Proof.
  unfold filesToDelete. rewrite in_app_iff.
  destruct (truthyOpt (originalFileUrl c)), (truthy (audioUrl c)); simpl;
    intros [[<-|[]]|[<-|[]]] || intros [[]|[<-|[]]] || intros [[<-|[]]|[]]
    || intros [[]|[]];
    (left; eexists; reflexivity) || (right; eexists; reflexivity).
Qed.

(** The world a DELETE run leaves, when both parameters are there. *)
Lemma deleteConversionRoute_world (E : Env) (userId conversionId : jsstring)
    (w : World) :
  truthy userId = true -> truthy conversionId = true ->
  snd (deleteConversionRoute E userId conversionId w) = ticked w
  \/ exists conversion w1,
       find (hasId conversionId)
            (map withDocId (map_to_list (conversionsOf w userId)))
         = Some conversion
       /\ w1 = snd (deleteFiles E (filesToDelete conversion) (ticked w))
       /\ (snd (deleteConversionRoute E userId conversionId w) = ticked w1
           \/ snd (deleteConversionRoute E userId conversionId w)
              = {| firestore :=
                     <[userId := delete conversionId (conversionsOf w userId)]>
                       (firestore w);
                   bucket := bucket w1;
                   tick := S (tick w1) |}).
Proof.
  intros Hu Hc. rewrite deleteConversionRoute_run by assumption.
  destruct (firestoreFault E (tick w)); [left; reflexivity|].
  destruct (find _ _) as [conversion|]; [|left; reflexivity].
  right. exists conversion. eexists. split; [reflexivity|].
  split; [reflexivity|]. cbv zeta.
  set (w1 := snd (deleteFiles E (filesToDelete conversion) (ticked w))).
  destruct (firestoreFault E (tick w1)); [left; reflexivity|].
  right. cbn [snd]. f_equal.
  rewrite (conversionsOf_same (ticked w) w1) by apply deleteFiles_firestore.
  unfold w1. rewrite deleteFiles_firestore. reflexivity.
Qed.

Lemma deleteConversionRoute_falsy (E : Env) (userId conversionId : jsstring)
    (w : World) :
  truthy userId && truthy conversionId = false ->
  deleteConversionRoute E userId conversionId w
  = (statusJson 400%N
       (ErrorJson (lit "User ID and Conversion ID are required") None), w).
Proof.
  intros H. unfold deleteConversionRoute, respond, deleteTry.
  destruct (truthy userId), (truthy conversionId); try discriminate H;
    reflexivity.
Qed.

(** X5. However a DELETE run ends, it leaves every record but the one
    under the requested id of the requesting user as it was, adds or
    changes no object of the bucket, and touches no object outside the
    folders [uploads/] and [audio/]. *)
Theorem deleteConversionRoute_frame (E : Env) (userId conversionId : jsstring)
    (w : World) :
  (forall u k,
      u <> userId \/ k <> conversionId ->
      conversionsOf (snd (deleteConversionRoute E userId conversionId w)) u !! k
      = conversionsOf w u !! k)
  /\ (forall name,
         is_Some (bucket (snd (deleteConversionRoute E userId conversionId w))
                    !! name) ->
         bucket (snd (deleteConversionRoute E userId conversionId w)) !! name
         = bucket w !! name)
  /\ (forall name,
         ~ lit "uploads/" `prefix_of` name ->
         ~ lit "audio/" `prefix_of` name ->
         bucket (snd (deleteConversionRoute E userId conversionId w)) !! name
         = bucket w !! name).
Proof.
  destruct (truthy userId && truthy conversionId) eqn:Hp.
  2:{ rewrite deleteConversionRoute_falsy by exact Hp. repeat split. }
  apply andb_true_iff in Hp as [Hu Hc].
  destruct (deleteConversionRoute_world E userId conversionId w Hu Hc)
    as [->|(c & w1 & Hfind & Hw1 & Hend)]; [repeat split|].
  destruct (deleteFiles_bucket E (filesToDelete c) (ticked w))
    as (Hleft & Hoff & _).
  rewrite <- Hw1 in Hleft, Hoff.
  assert (Hfs : firestore w1 = firestore w)
    by (rewrite Hw1, deleteFiles_firestore; reflexivity).
  assert (Hb : (forall name, is_Some (bucket w1 !! name) ->
                             bucket w1 !! name = bucket w !! name)
               /\ (forall name,
                      ~ lit "uploads/" `prefix_of` name ->
                      ~ lit "audio/" `prefix_of` name ->
                      bucket w1 !! name = bucket w !! name)).
  { split; [exact Hleft|]. intros name Hup Hau. apply Hoff.
    intros Hin. apply filesToDelete_folders in Hin as [H|H]; auto. }
  destruct Hend as [->| ->].
  - split; [|exact Hb]. intros u k _.
    rewrite (conversionsOf_same w (ticked w1)); [reflexivity | exact Hfs].
  - split; [|exact Hb]. intros u k Hne. unfold conversionsOf at 1.
    cbn [firestore].
    destruct (decide (userId = u)) as [<-|Hu'].
    + rewrite lookup_insert_eq. cbn [default from_option id].
      destruct Hne as [Hne|Hne]; [congruence|].
      apply lookup_delete_ne. congruence.
    + rewrite lookup_insert_ne by exact Hu'. reflexivity.
Qed.

(** ** GET /conversions/:userId *)

Lemma getConversionsRoute_run (E : Env) (userId : jsstring) (w : World) :
  truthy userId = true ->
  getConversionsRoute E userId w
  = match firestoreFault E (tick w) with
    | Some e =>
        (statusJson 500%N
           (ErrorJson (lit "Failed to retrieve conversions")
              (Some (message e))), ticked w)
    | None =>
        (resJson
           (ConversionsJson true
              (N.of_nat
                 (length (map withDocId
                            (map_to_list (conversionsOf w userId)))))
              (map withDocId (map_to_list (conversionsOf w userId)))),
         ticked w)
    end.
Proof.
  intros Hu. unfold getConversionsRoute, respond. rewrite Hu.
  change (negb true) with false. cbv iota.
  pose proof (getConversions_run E userId w) as Hrun.
  destruct (firestoreFault E (tick w)).
  - rewrite (bind_inl _ _ _ _ _ Hrun). reflexivity.
  - rewrite (bind_inr _ _ _ _ _ Hrun). reflexivity.
Qed.

(** X6. GET lists the documents of the user and nothing else: the count
    is the number of documents in the user's collection, every record
    listed is one of them with its id filled in, and every document is
    listed; a failed listing is answered 500 with the error's message. In
    both cases Firestore and the bucket are as they were. *)
Theorem getConversionsRoute_outcome (E : Env) (userId : jsstring) (w : World) :
  truthy userId = true ->
  sameStores w (snd (getConversionsRoute E userId w))
  /\ match firestoreFault E (tick w) with
     | Some e =>
         fst (getConversionsRoute E userId w)
         = statusJson 500%N
             (ErrorJson (lit "Failed to retrieve conversions")
                (Some (message e)))
     | None =>
         exists conversions,
           fst (getConversionsRoute E userId w)
           = resJson
               (ConversionsJson true
                  (N.of_nat (size (conversionsOf w userId))) conversions)
           /\ forall c,
                In c conversions <->
                exists k d, conversionsOf w userId !! k = Some d
                            /\ c = withDocId (k, d)
     end.
Proof.
  intros Hu. rewrite getConversionsRoute_run by exact Hu.
  destruct (firestoreFault E (tick w)).
  - split; [split; reflexivity | reflexivity].
  - split; [split; reflexivity|].
    eexists. split.
    + cbn [fst]. rewrite length_map, length_map_to_list. reflexivity.
    + intros c. apply in_listing.
Qed.

Lemma getConversionsRoute_outcome_witness :
  sameStores orphanedRecordWorld
    (snd (getConversionsRoute calmEnv (lit "u1") orphanedRecordWorld))
  /\ exists conversions,
       fst (getConversionsRoute calmEnv (lit "u1") orphanedRecordWorld)
       = resJson
           (ConversionsJson true
              (N.of_nat (size (conversionsOf orphanedRecordWorld (lit "u1"))))
              conversions)
       /\ forall c,
            In c conversions <->
            exists k d,
              conversionsOf orphanedRecordWorld (lit "u1") !! k = Some d
              /\ c = withDocId (k, d).
Proof.
  exact (getConversionsRoute_outcome calmEnv (lit "u1") orphanedRecordWorld
           eq_refl).
Defined.

(** ** The invariant of the record store, route by route *)

Lemma storeWf_delete (w : World) (userId docId : jsstring)
    (b : gmap jsstring StoredObject) (t : nat) :
  storeWf w ->
  storeWf {| firestore :=
               <[userId := delete docId (conversionsOf w userId)]>
                 (firestore w);
             bucket := b; tick := t |}.
Proof.
  intros Hwf u k d. unfold conversionsOf at 1. cbn [firestore].
  destruct (decide (userId = u)) as [<-|Hne].
  - rewrite lookup_insert_eq. cbn [default from_option id].
    intros [_ Hk]%lookup_delete_Some. apply (Hwf userId). exact Hk.
  - rewrite lookup_insert_ne by exact Hne. apply (Hwf u).
Qed.

(** X7. Every route keeps the invariant of the record store, however the
    run ends: if each record is listed under the id of its document
    before, so it is after a POST /convert, a GET and a DELETE. *)
Theorem routes_keep_storeWf (E : Env) (req : ConvertRequest)
    (userId conversionId : jsstring) (w : World) :
  storeWf w ->
  storeWf (snd (postConvert E req w))
  /\ storeWf (snd (getConversionsRoute E userId w))
  /\ storeWf (snd (deleteConversionRoute E userId conversionId w)).
Proof.
  intros Hwf. split; [|split].
  - revert Hwf. change (wfKept w (snd (postConvert E req w))).
    apply (keeps_postConvert wfKept) with (userId := requestUser req).
    + intros w1 w2 w3 H12 H23 H. apply H23, H12, H.
    + intros w1 w2 [Hfs _] H. exact (storeWf_same w1 w2 Hfs H).
    + intros w1 name obj t H. exact (storeWf_same w1 _ eq_refl H).
    + intros w1 docId d t Hid H. apply storeWf_save; assumption.
    + reflexivity.
  - apply (storeWf_same w); [|exact Hwf].
    destruct (truthy userId) eqn:Hu.
    + rewrite getConversionsRoute_run by exact Hu.
      destruct (firestoreFault E (tick w)); reflexivity.
    + unfold getConversionsRoute, respond. rewrite Hu. reflexivity.
  - destruct (truthy userId && truthy conversionId) eqn:Hp.
    2:{ rewrite deleteConversionRoute_falsy by exact Hp. exact Hwf. }
    apply andb_true_iff in Hp as [Hu Hc].
    destruct (deleteConversionRoute_world E userId conversionId w Hu Hc)
      as [->|(c & w1 & _ & Hw1 & [->| ->])].
    + exact Hwf.
    + apply (storeWf_same w); [|exact Hwf].
      rewrite Hw1. cbn [ticked firestore].
      rewrite deleteFiles_firestore. reflexivity.
    + apply storeWf_delete. exact Hwf.
Qed.

Lemma routes_keep_storeWf_witness :
  storeWf orphanedRecordWorld
  /\ storeWf (snd (postConvert calmEnv textFileRequest orphanedRecordWorld))
  /\ storeWf (snd (getConversionsRoute calmEnv (lit "u1") orphanedRecordWorld))
  /\ storeWf (snd (deleteConversionRoute calmEnv (lit "u1") (lit "c1")
                     orphanedRecordWorld)).
Proof.
  split; [exact storeWf_orphanedRecordWorld|].
  exact (routes_keep_storeWf calmEnv textFileRequest (lit "u1") (lit "c1")
           orphanedRecordWorld storeWf_orphanedRecordWorld).
Defined.

(** ** POST /convert, step by step *)

Section ConvertSteps.

Variable E : Env.

Lemma saveConversion_refused (userId : jsstring) (conversionData : Conversion)
    w e :
  firestoreFault E (S (tick w)) = Some e ->
  saveConversion E userId conversionData w = (inl e, ticked (ticked w)).
Proof.
  intros Hko. unfold saveConversion, docSet. rewrite rethrow_id.
  unfold bind at 1, nextTick. unfold bind at 1 2.
  rewrite firestoreCall_run. simpl. rewrite Hko. reflexivity.
Qed.

Lemma validations_pass (textContent : jsstring) :
  allWhiteSpace textContent = false ->
  (jsLength textContent <= 5000)%N ->
  negb (truthy (trim textContent)) = false
  /\ (5000 <? jsLength textContent)%N = false.
Proof.
  intros Hws Hlen. split.
  - destruct (truthy (trim textContent)) eqn:Ht; [reflexivity|].
    apply trim_blank in Ht. unfold allWhiteSpace in Hws. congruence.
  - apply N.ltb_ge. exact Hlen.
Qed.

(** The handler from a validated text to the upload of the audio. *)
Lemma validateAndConvert_audio (userId textContent : jsstring)
    (it : InputType) (ofn ofu : option jsstring) w audio :
  allWhiteSpace textContent = false ->
  (jsLength textContent <= 5000)%N ->
  synthesizeSpeech E (2 + tick w) (requestFor textContent defaultVoice)
    = inr audio ->
  storageFault E (3 + tick w) = None ->
  storageFault E (4 + tick w) = None ->
  validateAndConvert E userId textContent it ofn ofu w
  = bind (saveConversion E userId
            (conversionDataOf textContent it ofn ofu
               (publicUrlOf (audioFileNameAt E userId w))
               (dateNow E (5 + tick w))))
         (fun conversionId =>
            ret (convertedResponse conversionId
                   (publicUrlOf (audioFileNameAt E userId w))
                   (jsLength textContent) it))
         {| firestore := firestore w;
            bucket := <[audioFileNameAt E userId w :=
                          publicObject audio (lit "audio/mpeg")]> (bucket w);
            tick := 6 + tick w |}.
Proof.
  intros Hws Hlen Hsyn Hs3 Hs4. unfold validateAndConvert.
  destruct (validations_pass textContent Hws Hlen) as [-> ->].
  erewrite bind_inr by apply generateFileName_run.
  erewrite bind_inr
    by exact (convertAndSaveAudio_run E _ _ _ (ticked (ticked w)) audio
                Hsyn Hs3 Hs4).
  erewrite bind_inr by reflexivity.
  reflexivity.
Qed.

(** The whole success path, with the world it leaves. *)
Lemma validateAndConvert_success (userId textContent : jsstring)
    (it : InputType) (ofn ofu : option jsstring) w audio :
  allWhiteSpace textContent = false ->
  (jsLength textContent <= 5000)%N ->
  synthesizeSpeech E (2 + tick w) (requestFor textContent defaultVoice)
    = inr audio ->
  storageFault E (3 + tick w) = None ->
  storageFault E (4 + tick w) = None ->
  firestoreFault E (7 + tick w) = None ->
  validateAndConvert E userId textContent it ofn ofu w
  = (inr (convertedResponse (autoId E (6 + tick w))
            (publicUrlOf (audioFileNameAt E userId w))
            (jsLength textContent) it),
     {| firestore :=
          <[userId :=
              <[autoId E (6 + tick w) :=
                  savedAs (conversionDataOf textContent it ofn ofu
                             (publicUrlOf (audioFileNameAt E userId w))
                             (dateNow E (5 + tick w)))
                    (autoId E (6 + tick w))
                    (serverTimestamp E (8 + tick w))]>
                (conversionsOf w userId)]> (firestore w);
        bucket := <[audioFileNameAt E userId w :=
                      publicObject audio (lit "audio/mpeg")]> (bucket w);
        tick := 9 + tick w |}).
Proof.
  intros Hws Hlen Hsyn Hs3 Hs4 Hf7.
  rewrite (validateAndConvert_audio _ _ _ _ _ _ audio) by assumption.
  erewrite bind_inr by (apply saveConversion_run; exact Hf7).
  reflexivity.
Qed.

Lemma extractTextFromBuffer_world (buf : Buffer) (mime : jsstring) w :
  snd (extractTextFromBuffer E buf mime w) = w.
Proof.
  unfold extractTextFromBuffer. rewrite rethrow_id.
  destruct (strictEq mime (lit "application/pdf")).
  - destruct (pdf E buf); reflexivity.
  - destruct (strictEq mime (lit "text/plain")); reflexivity.
Qed.

(** Acquiring the text of an upload: extraction, then the original is
    stored. *)
Lemma acquireText_file (userId : jsstring) (req : ConvertRequest)
    (f : FilePart) (t : jsstring) w :
  file req = Some f ->
  extractTextFromBuffer E (buffer f) (mimetype f) w = (inr t, w) ->
  storageFault E (2 + tick w) = None ->
  storageFault E (3 + tick w) = None ->
  acquireText E userId req w
  = (inr (Content t (inputTypeOf f) (Some (originalname f))
            (Some (publicUrlOf
                     (storageFileNameAt E userId (inputTypeOf f) w)))),
     {| firestore := firestore w;
        bucket := <[storageFileNameAt E userId (inputTypeOf f) w :=
                      publicObject (buffer f) (mimetype f)]> (bucket w);
        tick := 4 + tick w |}).
Proof.
  intros Hf Hext Hs2 Hs3. unfold acquireText. rewrite Hf.
  erewrite bind_inr by exact Hext.
  erewrite bind_inr by apply generateFileName_run.
  erewrite bind_inr
    by (apply (uploadFile_run E _ _ _ (ticked (ticked w))); assumption).
  reflexivity.
Qed.

End ConvertSteps.

(** ** POST /convert: what a failure leaves behind *)

Lemma postConvert_accepted (E : Env) (req : ConvertRequest) (w : World) :
  uploadSingle req = inr req ->
  sent (fst (postConvert E req w))
    = fst (respond (convertTry E req) convertCatch w)
  /\ snd (postConvert E req w)
     = snd (respond (convertTry E req) convertCatch w).
Proof.
  intros Hup. unfold postConvert. rewrite Hup.
  apply convertHandler_sent.
Qed.

(** X8. When [file.save] goes through and [file.makePublic] is refused,
    [uploadFile] throws the refusal and the object stays in the bucket,
    private: nothing is undone. *)
Theorem uploadFile_not_undone (E : Env) (fileName : jsstring) (buf : Buffer)
    (ct : jsstring) (w : World) (e : JsError) :
  storageFault E (tick w) = None ->
  storageFault E (S (tick w)) = Some e ->
  fst (uploadFile E fileName buf ct w) = inl e
  /\ bucket (snd (uploadFile E fileName buf ct w))
     = <[fileName := {| content := buf; contentType := ct;
                        public := false |}]> (bucket w)
  /\ firestore (snd (uploadFile E fileName buf ct w)) = firestore w.
Proof.
  intros H0 H1.
  assert (Hrun :
    uploadFile E fileName buf ct w
    = (inl e,
       {| firestore := firestore w;
          bucket := <[fileName := {| content := buf; contentType := ct;
                                     public := false |}]> (bucket w);
          tick := S (S (tick w)) |})).
  { unfold uploadFile, fileSave, fileMakePublic.
    rewrite rethrow_id.
    unfold bind at 1 2 3. rewrite storageCall_run, H0.
    unfold bind at 1, getWorld, setBucket. simpl.
    unfold bind at 1 2. rewrite storageCall_run. simpl. rewrite H1.
    reflexivity. }
  rewrite Hrun. repeat split.
Qed.

Lemma uploadFile_not_undone_witness :
  fst (uploadFile storageFlakyEnv (lit "audio/a.mp3") [x49] (lit "audio/mpeg")
         emptyWorld)
    = inl (Error (lit "storage unavailable"))
  /\ bucket (snd (uploadFile storageFlakyEnv (lit "audio/a.mp3") [x49]
                    (lit "audio/mpeg") emptyWorld))
     = <[lit "audio/a.mp3" := {| content := [x49];
                                 contentType := lit "audio/mpeg";
                                 public := false |}]> (bucket emptyWorld)
  /\ firestore (snd (uploadFile storageFlakyEnv (lit "audio/a.mp3") [x49]
                       (lit "audio/mpeg") emptyWorld))
     = firestore emptyWorld.
Proof.
  exact (uploadFile_not_undone storageFlakyEnv (lit "audio/a.mp3") [x49]
           (lit "audio/mpeg") emptyWorld _ eq_refl eq_refl).
Defined.

Lemma convertAndSaveAudio_synthesis_failure (E : Env)
    (text fileName voiceName : jsstring) w e :
  synthesizeSpeech E (tick w) (requestFor text voiceName) = inl e ->
  convertAndSaveAudio E text fileName voiceName w = (inl e, ticked w).
Proof.
  intros Hs. unfold convertAndSaveAudio. rewrite rethrow_id.
  erewrite bind_inl; [reflexivity|].
  rewrite convertTextToAudio_run, Hs. reflexivity.
Qed.

(** X9. When the synthesis call fails on a valid inline text, the answer
    is 500 "Conversion failed" with the message of the service's error,
    and neither Firestore nor the bucket has changed. *)
Theorem convert_synthesis_failure (E : Env) (w : World)
    (userId txt : jsstring) (e : JsError) :
  truthy userId = true ->
  allWhiteSpace txt = false -> (jsLength txt <= 5000)%N ->
  synthesizeSpeech E (2 + tick w) (requestFor txt defaultVoice) = inl e ->
  sent (fst (postConvert E (inlineRequest userId txt) w))
    = statusJson 500%N
        (ErrorJson (lit "Conversion failed") (Some (message e)))
  /\ sameStores w (snd (postConvert E (inlineRequest userId txt) w)).
Proof.
  intros Hu Hws Hlen Hsyn.
  destruct (postConvert_inline E userId txt w Hu Hws) as [-> ->].
  unfold respond, validateAndConvert.
  destruct (validations_pass txt Hws Hlen) as [-> ->].
  erewrite bind_inr by apply generateFileName_run.
  erewrite bind_inl
    by exact (convertAndSaveAudio_synthesis_failure E _ _ _
                (ticked (ticked w)) e Hsyn).
  repeat split.
Qed.

Lemma convert_synthesis_failure_witness :
  sent (fst (postConvert synthesisDownEnv
               (inlineRequest (lit "u1") (lit "hello")) emptyWorld))
    = statusJson 500%N
        (ErrorJson (lit "Conversion failed")
           (Some (message (Error (lit "quota exceeded")))))
  /\ sameStores emptyWorld
       (snd (postConvert synthesisDownEnv
               (inlineRequest (lit "u1") (lit "hello")) emptyWorld)).
Proof.
  apply (convert_synthesis_failure synthesisDownEnv emptyWorld).
  - reflexivity.
  - reflexivity.
  - vm_compute. discriminate.
  - reflexivity.
Defined.

(** X10. When the audio has been stored and the write of the record is
    refused, the answer is 500 "Conversion failed" with the message of the
    refusal, no record is written, and the audio object stays in the
    bucket: the artifact is orphaned. *)
Theorem convert_orphans_audio (E : Env) (w : World) (userId txt : jsstring)
    (audio : Buffer) (e : JsError) :
  truthy userId = true ->
  allWhiteSpace txt = false -> (jsLength txt <= 5000)%N ->
  synthesizeSpeech E (2 + tick w) (requestFor txt defaultVoice) = inr audio ->
  storageFault E (3 + tick w) = None ->
  storageFault E (4 + tick w) = None ->
  firestoreFault E (7 + tick w) = Some e ->
  sent (fst (postConvert E (inlineRequest userId txt) w))
    = statusJson 500%N
        (ErrorJson (lit "Conversion failed") (Some (message e)))
  /\ firestore (snd (postConvert E (inlineRequest userId txt) w))
     = firestore w
  /\ bucket (snd (postConvert E (inlineRequest userId txt) w))
       !! audioFileNameAt E userId w
     = Some (publicObject audio (lit "audio/mpeg")).
Proof.
  intros Hu Hws Hlen Hsyn Hs3 Hs4 Hf7.
  destruct (postConvert_inline E userId txt w Hu Hws) as [-> ->].
  unfold respond.
  rewrite (validateAndConvert_audio E _ _ _ _ _ _ audio) by assumption.
  erewrite bind_inl by (apply saveConversion_refused; exact Hf7).
  cbn [fst snd ticked firestore bucket].
  repeat split. apply lookup_insert_eq.
Qed.

Lemma convert_orphans_audio_witness :
  sent (fst (postConvert firestoreDownEnv
               (inlineRequest (lit "u1") (lit "hello")) emptyWorld))
    = statusJson 500%N
        (ErrorJson (lit "Conversion failed")
           (Some (message (Error (lit "firestore unavailable")))))
  /\ firestore (snd (postConvert firestoreDownEnv
                       (inlineRequest (lit "u1") (lit "hello")) emptyWorld))
     = firestore emptyWorld
  /\ bucket (snd (postConvert firestoreDownEnv
                    (inlineRequest (lit "u1") (lit "hello")) emptyWorld))
       !! audioFileNameAt firestoreDownEnv (lit "u1") emptyWorld
     = Some (publicObject [x49; x44; x33] (lit "audio/mpeg")).
Proof.
  apply (convert_orphans_audio firestoreDownEnv emptyWorld).
  - reflexivity.
  - reflexivity.
  - vm_compute. discriminate.
  - reflexivity.
  - reflexivity.
  - reflexivity.
  - reflexivity.
Defined.

(** X11. A request the upload layer lets through without a [userId]
    field, or with an empty one, is answered 400 "User ID is required"
    before anything else happens: an attached file is neither read nor
    stored. *)
Theorem convert_requires_userId (E : Env) (req : ConvertRequest) (w : World) :
  uploadSingle req = inr req ->
  truthyOpt (body_userId req) = false ->
  sent (fst (postConvert E req w))
    = statusJson 400%N (ErrorJson (lit "User ID is required") None)
  /\ snd (postConvert E req w) = w.
Proof.
  intros Hup Hu. destruct (postConvert_accepted E req w Hup) as [-> ->].
  unfold respond, convertTry. rewrite Hu. split; reflexivity.
Qed.

Lemma convert_requires_userId_witness :
  sent (fst (postConvert calmEnv
               {| body_userId := Some []; body_text := Some (lit "hello");
                  file := file textFileRequest |} emptyWorld))
    = statusJson 400%N (ErrorJson (lit "User ID is required") None)
  /\ snd (postConvert calmEnv
            {| body_userId := Some []; body_text := Some (lit "hello");
               file := file textFileRequest |} emptyWorld)
     = emptyWorld.
Proof.
  apply convert_requires_userId; reflexivity.
Defined.

(** ** POST /convert with an upload *)

Lemma folders_differ (a b : jsstring) : lit "uploads/" ++ a <> lit "audio/" ++ b.
Proof. intros H. discriminate H. Qed.

(** X12. An accepted upload whose extracted text is valid, when storage,
    Firestore and synthesis answer, is converted: the response carries the
    type tag of the file ([pdf] for application/pdf, [txt] otherwise) and
    the length of the extracted text; the record names the original file
    and its URL; the bucket holds the original bytes under [uploads/] with
    the declared media type and the audio under [audio/] as audio/mpeg,
    both public. *)
Theorem convert_upload_success (E : Env) (w : World) (req : ConvertRequest)
    (f : FilePart) (userId t : jsstring) :
  uploadSingle req = inr req ->
  file req = Some f ->
  body_userId req = Some userId -> truthy userId = true ->
  extractTextFromBuffer E (buffer f) (mimetype f) w = (inr t, w) ->
  allWhiteSpace t = false -> (jsLength t <= 5000)%N ->
  storageUp E -> firestoreUp E -> synthesisUp E ->
  exists conversionId audioName audio record,
    sent (fst (postConvert E req w))
      = convertedResponse conversionId (publicUrlOf audioName) (jsLength t)
          (inputTypeOf f)
    /\ lit "audio/" `prefix_of` audioName
    /\ conversionsOf (snd (postConvert E req w)) userId !! conversionId
       = Some record
    /\ text record = t
    /\ inputType record = inputTypeOf f
    /\ originalFileName record = Some (originalname f)
    /\ originalFileUrl record
       = Some (publicUrlOf (storageFileNameAt E userId (inputTypeOf f) w))
    /\ audioUrl record = publicUrlOf audioName
    /\ bucket (snd (postConvert E req w))
         !! storageFileNameAt E userId (inputTypeOf f) w
       = Some (publicObject (buffer f) (mimetype f))
    /\ bucket (snd (postConvert E req w)) !! audioName
       = Some (publicObject audio (lit "audio/mpeg")).
Proof.
  intros Hup Hf Hb Hu Hext Hws Hlen Hst Hfs Hsyn.
  destruct (postConvert_accepted E req w Hup) as [-> ->].
  unfold respond.
  pose proof (acquireText_file E userId req f t w Hf Hext (Hst _) (Hst _))
    as Hacq.
  rewrite (convertTry_acquired E req userId w _ _ _ _ _ Hb Hu Hacq).
  match goal with
  | |- context [validateAndConvert E userId t _ _ _ ?w1] =>
      set (w4 := w1);
      destruct (Hsyn (2 + tick w4) (requestFor t defaultVoice))
        as [audio Haudio];
      rewrite (validateAndConvert_success E userId t _ _ _ w4 audio
                 Hws Hlen Haudio (Hst _) (Hst _) (Hfs _))
  end.
  cbn [fst snd].
  exists (autoId E (6 + tick w4)), (audioFileNameAt E userId w4), audio.
  eexists. split; [reflexivity|].
  split; [eexists; reflexivity|].
  split; [rewrite conversionsOf_insert; apply lookup_insert_eq|].
  do 5 (split; [reflexivity|]).
  cbn [bucket]. split.
  - rewrite lookup_insert_ne by (symmetry; apply folders_differ).
    apply lookup_insert_eq.
  - apply lookup_insert_eq.
Qed.

Lemma convert_upload_success_witness :
  exists conversionId audioName audio record,
    sent (fst (postConvert calmEnv pdfFileRequest emptyWorld))
      = convertedResponse conversionId (publicUrlOf audioName)
          (jsLength (lit "parsed")) Pdf
    /\ lit "audio/" `prefix_of` audioName
    /\ conversionsOf (snd (postConvert calmEnv pdfFileRequest emptyWorld))
         (lit "u1") !! conversionId
       = Some record
    /\ text record = lit "parsed"
    /\ inputType record = Pdf
    /\ originalFileName record = Some (lit "paper.pdf")
    /\ originalFileUrl record
       = Some (publicUrlOf
                 (storageFileNameAt calmEnv (lit "u1") Pdf emptyWorld))
    /\ audioUrl record = publicUrlOf audioName
    /\ bucket (snd (postConvert calmEnv pdfFileRequest emptyWorld))
         !! storageFileNameAt calmEnv (lit "u1") Pdf emptyWorld
       = Some (publicObject [x25; x50; x44; x46] (lit "application/pdf"))
    /\ bucket (snd (postConvert calmEnv pdfFileRequest emptyWorld))
         !! audioName
       = Some (publicObject audio (lit "audio/mpeg")).
Proof.
  apply (convert_upload_success calmEnv emptyWorld pdfFileRequest
           {| mimetype := lit "application/pdf";
              originalname := lit "paper.pdf";
              buffer := [x25; x50; x44; x46] |} (lit "u1") (lit "parsed")).
  - reflexivity.
  - reflexivity.
  - reflexivity.
  - reflexivity.
  - reflexivity.
  - reflexivity.
  - vm_compute. discriminate.
  - intros n. reflexivity.
  - intros n. reflexivity.
  - intros n r. eexists. reflexivity.
Defined.

(** X13. The original of an upload is stored before its text is
    validated: when the extracted text is blank or longer than 5000 code
    units, the answer is 400 and the original stays in the bucket, with no
    record pointing at it. *)
Theorem rejected_upload_keeps_original (E : Env) (w : World)
    (req : ConvertRequest) (f : FilePart) (userId t : jsstring) :
  uploadSingle req = inr req ->
  file req = Some f ->
  body_userId req = Some userId -> truthy userId = true ->
  extractTextFromBuffer E (buffer f) (mimetype f) w = (inr t, w) ->
  storageFault E (2 + tick w) = None ->
  storageFault E (3 + tick w) = None ->
  allWhiteSpace t = true \/ (5000 < jsLength t)%N ->
  statusCode (sent (fst (postConvert E req w))) = 400%N
  /\ firestore (snd (postConvert E req w)) = firestore w
  /\ bucket (snd (postConvert E req w))
       !! storageFileNameAt E userId (inputTypeOf f) w
     = Some (publicObject (buffer f) (mimetype f)).
Proof.
  intros Hup Hf Hb Hu Hext Hs2 Hs3 Hbad.
  destruct (postConvert_accepted E req w Hup) as [-> ->].
  unfold respond.
  pose proof (acquireText_file E userId req f t w Hf Hext Hs2 Hs3) as Hacq.
  rewrite (convertTry_acquired E req userId w _ _ _ _ _ Hb Hu Hacq).
  destruct (allWhiteSpace t) eqn:Hws.
  - rewrite validateAndConvert_blank by exact Hws.
    cbn [fst snd firestore bucket]. repeat split. apply lookup_insert_eq.
  - destruct Hbad as [Hbad|Hbad]; [discriminate Hbad|].
    apply N.ltb_lt in Hbad.
    rewrite validateAndConvert_tooLong by assumption.
    cbn [fst snd firestore bucket]. repeat split. apply lookup_insert_eq.
Qed.

Lemma rejected_upload_keeps_original_witness :
  statusCode (sent (fst (postConvert blankFileEnv textFileRequest emptyWorld)))
    = 400%N
  /\ firestore (snd (postConvert blankFileEnv textFileRequest emptyWorld))
     = firestore emptyWorld
  /\ bucket (snd (postConvert blankFileEnv textFileRequest emptyWorld))
       !! storageFileNameAt blankFileEnv (lit "u1") Txt emptyWorld
     = Some (publicObject [x20; x0a] (lit "text/plain")).
Proof.
  apply (rejected_upload_keeps_original blankFileEnv emptyWorld
           textFileRequest
           {| mimetype := lit "text/plain"; originalname := lit "note.txt";
              buffer := [x20; x0a] |} (lit "u1")
           [0x20; 0x0A; 0x09; 0x3000]%N).
  - reflexivity.
  - reflexivity.
  - reflexivity.
  - reflexivity.
  - reflexivity.
  - reflexivity.
  - reflexivity.
  - left. reflexivity.
Defined.

(** ** POST /convert, then GET *)

(** X14. After a successful inline conversion, a GET for the same user
    (the listing call going through) lists a record whose id is the
    [conversionId] of the response, whose [audioUrl] is the one of the
    response and whose text is the text sent. *)
Theorem converted_record_is_listed (E : Env) (w : World)
    (userId txt : jsstring) :
  truthy userId = true ->
  allWhiteSpace txt = false -> (jsLength txt <= 5000)%N ->
  storageUp E -> firestoreUp E -> synthesisUp E ->
  exists conversionId url n conversions c,
    sent (fst (postConvert E (inlineRequest userId txt) w))
      = convertedResponse conversionId url (jsLength txt) Text
    /\ fst (getConversionsRoute E userId
              (snd (postConvert E (inlineRequest userId txt) w)))
       = resJson (ConversionsJson true n conversions)
    /\ In c conversions
    /\ id_ c = Some conversionId
    /\ audioUrl c = url
    /\ text c = txt.
Proof.
  intros Hu Hws Hlen Hst Hfs Hsyn.
  destruct (postConvert_inline E userId txt w Hu Hws) as [-> ->].
  destruct (Hsyn (2 + tick w) (requestFor txt defaultVoice)) as [audio Haudio].
  unfold respond.
  rewrite (validateAndConvert_success E userId txt Text None None w audio
             Hws Hlen Haudio (Hst _) (Hst _) (Hfs _)).
  cbn [fst snd].
  rewrite getConversionsRoute_run by exact Hu. rewrite Hfs. cbn [fst].
  eexists _, _, _, _, _. split; [reflexivity|]. split; [reflexivity|].
  split.
  - apply in_listing. eexists _, _. split; [|reflexivity].
    rewrite conversionsOf_insert. apply lookup_insert_eq.
  - repeat split.
Qed.

Lemma converted_record_is_listed_witness :
  exists conversionId url n conversions c,
    sent (fst (postConvert calmEnv (inlineRequest (lit "u1") (lit "hello"))
                 emptyWorld))
      = convertedResponse conversionId url (jsLength (lit "hello")) Text
    /\ fst (getConversionsRoute calmEnv (lit "u1")
              (snd (postConvert calmEnv
                      (inlineRequest (lit "u1") (lit "hello")) emptyWorld)))
       = resJson (ConversionsJson true n conversions)
    /\ In c conversions
    /\ id_ c = Some conversionId
    /\ audioUrl c = url
    /\ text c = lit "hello".
Proof.
  apply (converted_record_is_listed calmEnv emptyWorld).
  - reflexivity.
  - reflexivity.
  - vm_compute. discriminate.
  - intros n. reflexivity.
  - intros n. reflexivity.
  - intros n r. eexists. reflexivity.
Defined.

(** ** DELETE: the artifacts of a record *)

Lemma find_wf (w : World) (userId conversionId : jsstring) (d : Conversion) :
  storeWf w ->
  conversionsOf w userId !! conversionId = Some d ->
  find (hasId conversionId)
       (map withDocId (map_to_list (conversionsOf w userId)))
  = Some (withDocId (conversionId, d)).
Proof.
  intros Hwf Hd.
  assert (Hrec : hasRecord w userId conversionId).
  { exists conversionId, d. split; [exact Hd|]. apply (Hwf _ _ _ Hd). }
  destruct (find_hasRecord _ _ _ Hrec) as (c & Hc). rewrite Hc.
  apply find_some in Hc as [Hin Hid].
  apply in_listing in Hin as (k & d' & Hk & ->).
  apply hasId_spec in Hid. rewrite (Hwf _ _ _ Hk) in Hid.
  injection Hid as ->. congruence.
Qed.

Lemma pop_audio_url (base : jsstring) :
  ~ In slash base ->
  pop (split slash (publicUrlOf (lit "audio/" ++ base))) = Some base.
Proof. exact (pop_publicUrlOf (lit "audio") base). Qed.

Lemma pop_uploads_url (base : jsstring) :
  ~ In slash base ->
  pop (split slash (publicUrlOf (lit "uploads/" ++ base))) = Some base.
Proof. exact (pop_publicUrlOf (lit "uploads") base). Qed.

(** The names rebuilt from a record: at most one under [uploads/], then
    the audio name. *)
Lemma filesToDelete_audio_last (c : Conversion) (baseA : jsstring) :
  audioUrl c = publicUrlOf (lit "audio/" ++ baseA) ->
  ~ In slash baseA ->
  exists pre,
    filesToDelete c = pre ++ [lit "audio/" ++ baseA]
    /\ forall x, In x pre -> lit "uploads/" `prefix_of` x.
Proof.
  intros Ha HA. unfold filesToDelete.
  rewrite Ha, truthy_publicUrlOf, pop_audio_url by exact HA.
  eexists. split; [reflexivity|].
  destruct (truthyOpt (originalFileUrl c));
    [intros x [<-|[]]; eexists; reflexivity | intros x []].
Qed.

Lemma filesToDelete_both (c : Conversion) (baseA baseU : jsstring) :
  audioUrl c = publicUrlOf (lit "audio/" ++ baseA) ->
  originalFileUrl c = Some (publicUrlOf (lit "uploads/" ++ baseU)) ->
  ~ In slash baseA -> ~ In slash baseU ->
  filesToDelete c = [lit "uploads/" ++ baseU; lit "audio/" ++ baseA].
Proof.
  intros Ha Ho HA HU. unfold filesToDelete. rewrite Ha, Ho.
  cbn [truthyOpt default from_option id]. rewrite !truthy_publicUrlOf.
  rewrite pop_audio_url, pop_uploads_url by assumption. reflexivity.
Qed.

Lemma filesToDelete_audio_only (c : Conversion) (baseA : jsstring) :
  audioUrl c = publicUrlOf (lit "audio/" ++ baseA) ->
  originalFileUrl c = None ->
  ~ In slash baseA ->
  filesToDelete c = [lit "audio/" ++ baseA].
Proof.
  intros Ha Ho HA. unfold filesToDelete. rewrite Ha, Ho.
  cbn [truthyOpt]. rewrite truthy_publicUrlOf.
  rewrite pop_audio_url by assumption. reflexivity.
Qed.

Lemma deleteFile_present (E : Env) (fileName : jsstring) (w : World) :
  storageFault E (tick w) = None ->
  is_Some (bucket w !! fileName) ->
  deleteFile E fileName w
  = (inr true,
     {| firestore := firestore w;
        bucket := delete fileName (bucket w);
        tick := S (tick w) |}).
Proof.
  intros Hok [o Ho]. rewrite deleteFile_run, Hok, Ho. reflexivity.
Qed.

Lemma deleteFiles_app (E : Env) (pre post : list jsstring) (w : World) :
  deleteFiles E (pre ++ post) w
  = deleteFiles E post (snd (deleteFiles E pre w)).
Proof.
  revert w. induction pre as [|f pre IH]; intros w; [reflexivity|].
  cbn [app]. rewrite !deleteFiles_cons. apply IH.
Qed.

Lemma deleteFiles_one (E : Env) (f : jsstring) (w : World) :
  deleteFiles E [f] w = (inr tt, snd (deleteFile E f w)).
Proof. rewrite deleteFiles_cons. reflexivity. Qed.

(** After the loop, with Cloud Storage answering, the audio object of the
    record is gone. *)
Lemma deleteFiles_removes_audio (E : Env) (c : Conversion) (baseA : jsstring)
    (w : World) :
  storageUp E ->
  audioUrl c = publicUrlOf (lit "audio/" ++ baseA) ->
  ~ In slash baseA ->
  bucket (snd (deleteFiles E (filesToDelete c) w)) !! (lit "audio/" ++ baseA)
  = None.
Proof.
  intros Hst Ha HA.
  destruct (filesToDelete_audio_last c baseA Ha HA) as (pre & -> & Hpre).
  rewrite deleteFiles_app, deleteFiles_one. cbn [snd].
  set (w0 := snd (deleteFiles E pre w)).
  rewrite deleteFile_run, Hst.
  destruct (bucket w0 !! (lit "audio/" ++ baseA)) eqn:Hb.
  - cbn [snd bucket]. apply lookup_delete_eq.
  - exact Hb.
Qed.

(** X15. Deleting a record written for an upload, with Firestore and
    Cloud Storage answering and both artifacts in the bucket under the
    names they were stored under, answers success and removes exactly the
    original, the audio and the record. *)
Theorem delete_removes_artifacts (E : Env) (userId conversionId : jsstring)
    (w : World) (d : Conversion) (baseA baseU : jsstring) :
  truthy userId = true -> truthy conversionId = true ->
  firestoreUp E -> storageUp E -> storeWf w ->
  conversionsOf w userId !! conversionId = Some d ->
  audioUrl d = publicUrlOf (lit "audio/" ++ baseA) ->
  originalFileUrl d = Some (publicUrlOf (lit "uploads/" ++ baseU)) ->
  ~ In slash baseA -> ~ In slash baseU ->
  is_Some (bucket w !! (lit "audio/" ++ baseA)) ->
  is_Some (bucket w !! (lit "uploads/" ++ baseU)) ->
  fst (deleteConversionRoute E userId conversionId w)
    = deletedResponse conversionId
  /\ bucket (snd (deleteConversionRoute E userId conversionId w))
     = delete (lit "audio/" ++ baseA)
         (delete (lit "uploads/" ++ baseU) (bucket w))
  /\ conversionsOf (snd (deleteConversionRoute E userId conversionId w)) userId
     = delete conversionId (conversionsOf w userId).
Proof.
  intros Hu Hc Hfs Hst Hwf Hd Ha Ho HA HU HbA HbU.
  rewrite deleteConversionRoute_run by assumption.
  rewrite Hfs, (find_wf w userId conversionId d Hwf Hd). cbv zeta.
  assert (Hfiles : filesToDelete (withDocId (conversionId, d))
                   = [lit "uploads/" ++ baseU; lit "audio/" ++ baseA])
    by (apply filesToDelete_both; assumption).
  rewrite Hfiles. rewrite deleteFiles_cons.
  rewrite (deleteFile_present E _ (ticked w)) by (auto using Hst).
  rewrite deleteFiles_one. cbn [snd].
  rewrite deleteFile_present.
  - cbn [snd tick bucket firestore]. rewrite Hfs. cbn [fst snd bucket].
    split; [reflexivity|]. split; [reflexivity|].
    apply conversionsOf_insert.
  - apply Hst.
  - cbn [bucket ticked]. rewrite lookup_delete_ne; [exact HbA|].
    apply folders_differ.
Qed.

Lemma delete_removes_artifacts_witness :
  fst (deleteConversionRoute calmEnv (lit "u1") (lit "c1") fullRecordWorld)
    = deletedResponse (lit "c1")
  /\ bucket (snd (deleteConversionRoute calmEnv (lit "u1") (lit "c1")
                    fullRecordWorld))
     = delete (lit "audio/" ++ lit "audio_u1_1700000000002_4fzyo8.mp3")
         (delete (lit "uploads/" ++ lit "original_u1_1700000000000_4fzyo8.txt")
            (bucket fullRecordWorld))
  /\ conversionsOf
       (snd (deleteConversionRoute calmEnv (lit "u1") (lit "c1")
               fullRecordWorld)) (lit "u1")
     = delete (lit "c1") (conversionsOf fullRecordWorld (lit "u1")).
Proof.
  apply (delete_removes_artifacts calmEnv (lit "u1") (lit "c1")
           fullRecordWorld sampleRecord).
  - reflexivity.
  - reflexivity.
  - intros n. reflexivity.
  - intros n. reflexivity.
  - exact (storeWf_same orphanedRecordWorld fullRecordWorld eq_refl
             storeWf_orphanedRecordWorld).
  - vm_compute. reflexivity.
  - reflexivity.
  - reflexivity.
  - vm_compute. intuition discriminate.
  - vm_compute. intuition discriminate.
  - vm_compute. eauto.
  - vm_compute. eauto.
Defined.

(** X16. When the artifacts have been deleted and the deletion of the
    record is then refused, the answer is 500 "Failed to delete
    conversion" with the refusal's message; the record is still there and
    its audio is gone from the bucket: nothing is restored. *)
Theorem delete_failure_not_undone (E : Env) (userId conversionId : jsstring)
    (w : World) (d : Conversion) (baseA : jsstring) (e : JsError) :
  truthy userId = true -> truthy conversionId = true ->
  firestoreFault E (tick w) = None ->
  (forall n, tick w < n -> firestoreFault E n = Some e) ->
  storageUp E -> storeWf w ->
  conversionsOf w userId !! conversionId = Some d ->
  audioUrl d = publicUrlOf (lit "audio/" ++ baseA) ->
  ~ In slash baseA ->
  fst (deleteConversionRoute E userId conversionId w)
    = statusJson 500%N
        (ErrorJson (lit "Failed to delete conversion") (Some (message e)))
  /\ conversionsOf (snd (deleteConversionRoute E userId conversionId w)) userId
       !! conversionId = Some d
  /\ bucket (snd (deleteConversionRoute E userId conversionId w))
       !! (lit "audio/" ++ baseA) = None.
Proof.
  intros Hu Hc Hf0 Hlater Hst Hwf Hd Ha HA.
  rewrite deleteConversionRoute_run by assumption.
  rewrite Hf0, (find_wf w userId conversionId d Hwf Hd). cbv zeta.
  set (w1 := snd (deleteFiles E (filesToDelete (withDocId (conversionId, d)))
                    (ticked w))).
  assert (Htick : tick w < tick w1).
  { destruct (deleteFiles_bucket E
                (filesToDelete (withDocId (conversionId, d))) (ticked w))
      as (_ & _ & Ht). fold w1 in Ht. cbn [ticked tick] in Ht. lia. }
  rewrite (Hlater _ Htick). cbn [fst snd].
  split; [reflexivity|]. split.
  - rewrite (conversionsOf_same w (ticked w1)); [exact Hd|].
    cbn [ticked firestore]. unfold w1. rewrite deleteFiles_firestore.
    reflexivity.
  - cbn [ticked bucket]. unfold w1.
    apply deleteFiles_removes_audio; assumption.
Qed.

Lemma delete_failure_not_undone_witness :
  is_Some (bucket fullRecordWorld
             !! (lit "audio/" ++ lit "audio_u1_1700000000002_4fzyo8.mp3"))
  /\ fst (deleteConversionRoute firestoreFlakyEnv (lit "u1") (lit "c1")
            fullRecordWorld)
     = statusJson 500%N
         (ErrorJson (lit "Failed to delete conversion")
            (Some (message (Error (lit "firestore unavailable")))))
  /\ conversionsOf
       (snd (deleteConversionRoute firestoreFlakyEnv (lit "u1") (lit "c1")
               fullRecordWorld)) (lit "u1") !! lit "c1"
     = Some sampleRecord
  /\ bucket (snd (deleteConversionRoute firestoreFlakyEnv (lit "u1") (lit "c1")
                    fullRecordWorld))
       !! (lit "audio/" ++ lit "audio_u1_1700000000002_4fzyo8.mp3") = None.
Proof.
  split; [vm_compute; eauto|].
  apply (delete_failure_not_undone firestoreFlakyEnv (lit "u1") (lit "c1")
           fullRecordWorld sampleRecord).
  - reflexivity.
  - reflexivity.
  - reflexivity.
  - intros [|n] Hn; [inversion Hn | reflexivity].
  - intros n. reflexivity.
  - exact (storeWf_same orphanedRecordWorld fullRecordWorld eq_refl
             storeWf_orphanedRecordWorld).
  - vm_compute. reflexivity.
  - reflexivity.
  - vm_compute. intuition discriminate.
Defined.

(** ** POST /convert, then DELETE *)

Lemma generatedNameAt_without (E : Env) (userId type : jsstring) (w : World)
    (sep : N) :
  (sep < 48)%N ->
  ~ In sep type -> ~ In sep userId ->
  ~ In sep (substring 2 8 (mathRandom36 E (S (tick w)))) ->
  ~ In sep (generatedNameAt E userId type w).
Proof.
  intros Hsep Ht Hu Hr. unfold generatedNameAt.
  rewrite !in_app_iff. intros [H|[H|[H|[H|[H|[H|H]]]]]]; auto.
  - vm_compute in H. destruct H as [H|[]]. subst sep. discriminate Hsep.
  - vm_compute in H. destruct H as [H|[]]. subst sep. discriminate Hsep.
  - apply numberToString_digits in H. lia.
  - vm_compute in H. destruct H as [H|[]]. subst sep. discriminate Hsep.
Qed.

(** X17. A successful inline conversion followed by the deletion of the
    id it returned, for a user id and a random suffix without ['/'] and
    with every service answering: the deletion succeeds, the record and
    the audio object are gone, and if the generated id and name were
    fresh, the user's records and the bucket are back to what they were
    before the conversion. *)
Theorem convert_then_delete (E : Env) (w : World) (userId txt : jsstring) :
  truthy userId = true -> ~ In slash userId ->
  ~ In slash (substring 2 8 (mathRandom36 E (S (tick w)))) ->
  truthy (autoId E (6 + tick w)) = true ->
  allWhiteSpace txt = false -> (jsLength txt <= 5000)%N ->
  storageUp E -> firestoreUp E -> synthesisUp E -> storeWf w ->
  sent (fst (postConvert E (inlineRequest userId txt) w))
    = convertedResponse (autoId E (6 + tick w))
        (publicUrlOf (audioFileNameAt E userId w)) (jsLength txt) Text
  /\ fst (deleteConversionRoute E userId (autoId E (6 + tick w))
            (snd (postConvert E (inlineRequest userId txt) w)))
     = deletedResponse (autoId E (6 + tick w))
  /\ conversionsOf
       (snd (deleteConversionRoute E userId (autoId E (6 + tick w))
               (snd (postConvert E (inlineRequest userId txt) w)))) userId
       !! autoId E (6 + tick w) = None
  /\ bucket
       (snd (deleteConversionRoute E userId (autoId E (6 + tick w))
               (snd (postConvert E (inlineRequest userId txt) w))))
       !! audioFileNameAt E userId w = None
  /\ (conversionsOf w userId !! autoId E (6 + tick w) = None ->
      conversionsOf
        (snd (deleteConversionRoute E userId (autoId E (6 + tick w))
                (snd (postConvert E (inlineRequest userId txt) w)))) userId
      = conversionsOf w userId)
  /\ (bucket w !! audioFileNameAt E userId w = None ->
      bucket
        (snd (deleteConversionRoute E userId (autoId E (6 + tick w))
                (snd (postConvert E (inlineRequest userId txt) w))))
      = bucket w).
Proof.
  intros Hu Hus Hrs Hid Hws Hlen Hst Hfs Hsyn Hwf.
  destruct (postConvert_inline E userId txt w Hu Hws) as [-> ->].
  destruct (Hsyn (2 + tick w) (requestFor txt defaultVoice)) as [audio Haudio].
  unfold respond.
  rewrite (validateAndConvert_success E userId txt Text None None w audio
             Hws Hlen Haudio (Hst _) (Hst _) (Hfs _)).
  cbn [fst snd]. split; [reflexivity|].
  set (conversionId := autoId E (6 + tick w)).
  set (url := publicUrlOf (audioFileNameAt E userId w)).
  set (saved := savedAs (conversionDataOf txt Text None None url
                           (dateNow E (5 + tick w)))
                  conversionId (serverTimestamp E (8 + tick w))).
  set (obj := publicObject audio (lit "audio/mpeg")).
  set (w1 := {| firestore :=
                  <[userId := <[conversionId := saved]>
                                (conversionsOf w userId)]> (firestore w);
                bucket := <[audioFileNameAt E userId w := obj]> (bucket w);
                tick := 9 + tick w |}).
  assert (Hwf1 : storeWf w1) by (apply storeWf_save; [reflexivity|exact Hwf]).
  assert (Hd1 : conversionsOf w1 userId !! conversionId = Some saved).
  { unfold w1. rewrite conversionsOf_insert. apply lookup_insert_eq. }
  assert (Hbase : ~ In slash (generatedNameAt E userId (lit "audio") w
                              ++ lit ".mp3")).
  { rewrite in_app_iff. intros [H|H].
    - revert H. apply generatedNameAt_without; try assumption.
      + reflexivity.
      + vm_compute. intuition discriminate.
    - vm_compute in H. intuition discriminate. }
  assert (Hfiles : filesToDelete (withDocId (conversionId, saved))
                   = [audioFileNameAt E userId w])
    by (apply filesToDelete_audio_only; [reflexivity|reflexivity|exact Hbase]).
  rewrite deleteConversionRoute_run by assumption.
  rewrite Hfs, (find_wf w1 userId conversionId saved Hwf1 Hd1). cbv zeta.
  rewrite Hfiles, deleteFiles_one. cbn [snd].
  rewrite (deleteFile_present E _ (ticked w1))
    by (try apply Hst; cbn [ticked bucket w1];
        rewrite lookup_insert_eq; eauto).
  cbn [snd tick bucket firestore]. rewrite Hfs.
  cbn [fst snd bucket]. split; [reflexivity|].
  rewrite conversionsOf_insert.
  assert (Hc : conversionsOf (ticked w1) userId
               = <[conversionId := saved]> (conversionsOf w userId)).
  { unfold w1. apply conversionsOf_insert. }
  change (conversionsOf
            {| firestore := firestore (ticked w1);
               bucket := delete (audioFileNameAt E userId w)
                           (bucket (ticked w1));
               tick := S (tick (ticked w1)) |} userId)
    with (conversionsOf (ticked w1) userId).
  rewrite Hc. cbn [ticked bucket w1].
  split; [apply lookup_delete_eq|].
  split; [apply lookup_delete_eq|].
  split.
  - intros Hfresh. rewrite delete_insert_eq. apply delete_id. exact Hfresh.
  - intros Hfresh. rewrite delete_insert_eq. apply delete_id. exact Hfresh.
Qed.

Lemma convert_then_delete_witness :
  sent (fst (postConvert calmEnv (inlineRequest (lit "u1") (lit "hello"))
               emptyWorld))
    = convertedResponse (autoId calmEnv (6 + tick emptyWorld))
        (publicUrlOf (audioFileNameAt calmEnv (lit "u1") emptyWorld))
        (jsLength (lit "hello")) Text
  /\ fst (deleteConversionRoute calmEnv (lit "u1")
            (autoId calmEnv (6 + tick emptyWorld))
            (snd (postConvert calmEnv (inlineRequest (lit "u1") (lit "hello"))
                    emptyWorld)))
     = deletedResponse (autoId calmEnv (6 + tick emptyWorld))
  /\ conversionsOf
       (snd (deleteConversionRoute calmEnv (lit "u1")
               (autoId calmEnv (6 + tick emptyWorld))
               (snd (postConvert calmEnv
                       (inlineRequest (lit "u1") (lit "hello")) emptyWorld))))
       (lit "u1") !! autoId calmEnv (6 + tick emptyWorld) = None
  /\ bucket
       (snd (deleteConversionRoute calmEnv (lit "u1")
               (autoId calmEnv (6 + tick emptyWorld))
               (snd (postConvert calmEnv
                       (inlineRequest (lit "u1") (lit "hello")) emptyWorld))))
       !! audioFileNameAt calmEnv (lit "u1") emptyWorld = None
  /\ (conversionsOf emptyWorld (lit "u1")
        !! autoId calmEnv (6 + tick emptyWorld) = None ->
      conversionsOf
        (snd (deleteConversionRoute calmEnv (lit "u1")
                (autoId calmEnv (6 + tick emptyWorld))
                (snd (postConvert calmEnv
                        (inlineRequest (lit "u1") (lit "hello")) emptyWorld))))
        (lit "u1")
      = conversionsOf emptyWorld (lit "u1"))
  /\ (bucket emptyWorld !! audioFileNameAt calmEnv (lit "u1") emptyWorld
      = None ->
      bucket
        (snd (deleteConversionRoute calmEnv (lit "u1")
                (autoId calmEnv (6 + tick emptyWorld))
                (snd (postConvert calmEnv
                        (inlineRequest (lit "u1") (lit "hello")) emptyWorld))))
      = bucket emptyWorld).
Proof.
  apply (convert_then_delete calmEnv emptyWorld (lit "u1") (lit "hello")).
  - reflexivity.
  - vm_compute. intuition discriminate.
  - vm_compute. intuition discriminate.
  - reflexivity.
  - reflexivity.
  - vm_compute. discriminate.
  - intros n. reflexivity.
  - intros n. reflexivity.
  - intros n r. eexists. reflexivity.
  - exact storeWf_emptyWorld.
Defined.

(** ** The upload layer and the extraction *)

(** X18. For a file the upload layer lets through, the declared type is
    application/pdf or text/plain and the "Unsupported file type" branch of
    the extraction is never taken: the extraction is the result of
    pdf-parse for a PDF and the UTF-8 decoding, which cannot fail, for
    plain text; it touches nothing outside the process. *)
Theorem accepted_file_extraction (E : Env) (req req' : ConvertRequest)
    (f : FilePart) (w : World) :
  uploadSingle req = inr req' ->
  file req' = Some f ->
  (mimetype f = lit "application/pdf"
   /\ extractTextFromBuffer E (buffer f) (mimetype f) w
      = (pdf E (buffer f), w))
  \/ (mimetype f = lit "text/plain"
      /\ extractTextFromBuffer E (buffer f) (mimetype f) w
         = (inr (toStringUtf8 E (buffer f)), w)).
Proof.
  intros Hup Hf. unfold uploadSingle in Hup.
  destruct (file req) as [g|] eqn:Hg; [|congruence].
  unfold fileFilter in Hup.
  destruct (includes allowedTypes (mimetype g)) eqn:Hty; [|discriminate Hup].
  destruct (_ <? _)%N; [discriminate Hup|].
  injection Hup as <-. rewrite Hg in Hf. injection Hf as ->.
  unfold includes, allowedTypes in Hty. cbn [existsb] in Hty.
  rewrite orb_false_r in Hty. apply orb_true_iff in Hty as [Hty|Hty];
    apply strictEq_spec in Hty; symmetry in Hty.
  - left. split; [exact Hty|].
    unfold extractTextFromBuffer. rewrite rethrow_id, Hty.
    destruct (pdf E (buffer f)); reflexivity.
  - right. split; [exact Hty|].
    unfold extractTextFromBuffer. rewrite rethrow_id, Hty. reflexivity.
Qed.

Lemma accepted_file_extraction_witness :
  (lit "text/plain" = lit "application/pdf"
   /\ extractTextFromBuffer calmEnv [x20; x0a] (lit "text/plain") emptyWorld
      = (pdf calmEnv [x20; x0a], emptyWorld))
  \/ (lit "text/plain" = lit "text/plain"
      /\ extractTextFromBuffer calmEnv [x20; x0a] (lit "text/plain") emptyWorld
         = (inr (toStringUtf8 calmEnv [x20; x0a]), emptyWorld)).
Proof.
  exact (accepted_file_extraction calmEnv textFileRequest textFileRequest
           {| mimetype := lit "text/plain"; originalname := lit "note.txt";
              buffer := [x20; x0a] |} emptyWorld eq_refl eq_refl).
Defined.

Lemma oversized_file_answers_400_witness :
  (fileSize < N.of_nat (length (repeat x00 (N.to_nat (fileSize + 1)))))%N
  /\ postConvert calmEnv oversizedRequest emptyWorld
     = ({| sent := statusJson 400%N
                     (ErrorJson (lit "File too large. Maximum size is 10MB.")
                        None);
           cleanupEntered := false;
           completion := Returned |}, emptyWorld).
Proof.
  assert (Hsz : (fileSize
                 < N.of_nat (length (repeat x00 (N.to_nat (fileSize + 1)))))%N).
  { rewrite repeat_length, N2Nat.id. apply N.lt_add_pos_r. reflexivity. }
  split; [exact Hsz|].
  exact (oversized_file_answers_400 calmEnv emptyWorld oversizedRequest
           {| mimetype := lit "application/pdf";
              originalname := lit "big.pdf";
              buffer := repeat x00 (N.to_nat (fileSize + 1)) |}
           eq_refl eq_refl Hsz).
Defined.

(** ** firebase.js: writing, listing, deleting *)

(** X20. [saveConversion] followed by [getConversions], both calls going
    through: the listing holds a record under the id [saveConversion]
    returned, with the text, type tag, file name, URLs, status, completion
    time and text length it was given and a creation time set by the
    server. *)
Theorem saveConversion_then_list (E : Env) (userId : jsstring)
    (conversionData : Conversion) (w : World) :
  firestoreFault E (1 + tick w) = None ->
  firestoreFault E (3 + tick w) = None ->
  exists conversionId w1 conversions w2 c,
    saveConversion E userId conversionData w = (inr conversionId, w1)
    /\ getConversions E userId w1 = (inr conversions, w2)
    /\ In c conversions
    /\ c = savedAs conversionData conversionId
             (serverTimestamp E (2 + tick w))
    /\ bucket w2 = bucket w.
Proof.
  intros H1 H3. simpl in H3.
  eexists _, _, _, _, _.
  split; [apply saveConversion_run; exact H1|].
  split; [rewrite getConversions_run; cbn [tick]; rewrite H3; reflexivity|].
  split; [|split; reflexivity].
  apply in_listing. eexists _, _. split.
  - rewrite conversionsOf_insert. apply lookup_insert_eq.
  - reflexivity.
Qed.

Lemma saveConversion_then_list_witness :
  exists conversionId w1 conversions w2 c,
    saveConversion calmEnv (lit "u1") sampleRecord emptyWorld
      = (inr conversionId, w1)
    /\ getConversions calmEnv (lit "u1") w1 = (inr conversions, w2)
    /\ In c conversions
    /\ c = savedAs sampleRecord conversionId
             (serverTimestamp calmEnv (2 + tick emptyWorld))
    /\ bucket w2 = bucket emptyWorld.
Proof.
  exact (saveConversion_then_list calmEnv (lit "u1") sampleRecord emptyWorld
           eq_refl eq_refl).
Defined.

(** X21. After a DELETE that answered success, on a store where every
    record is listed under its document id, a GET for the same user (the
    listing call going through) lists no record with the deleted id. *)
Theorem deleted_record_not_listed (E : Env) (userId conversionId : jsstring)
    (w w1 : World) :
  truthy userId = true -> truthy conversionId = true ->
  storeWf w ->
  deleteConversionRoute E userId conversionId w
    = (deletedResponse conversionId, w1) ->
  firestoreFault E (tick w1) = None ->
  exists n conversions,
    fst (getConversionsRoute E userId w1)
      = resJson (ConversionsJson true n conversions)
    /\ forall c, In c conversions -> id_ c <> Some conversionId.
Proof.
  intros Hu Hc Hwf Hrun Hok.
  rewrite getConversionsRoute_run, Hok by exact Hu. cbn [fst].
  eexists _, _. split; [reflexivity|].
  intros c Hin. apply in_listing in Hin as (k & d & Hk & ->).
  revert k d Hk. change (noRecord w1 userId conversionId).
  rewrite deleteConversionRoute_run in Hrun by assumption.
  destruct (firestoreFault E (tick w)); [discriminate Hrun|].
  destruct (find _ _) as [conversion|]; [|discriminate Hrun].
  cbv zeta in Hrun.
  destruct (firestoreFault E (tick _)); [discriminate Hrun|].
  injection Hrun as <-.
  apply (storeWf_noRecord_after_delete w); [exact Hwf|].
  rewrite conversionsOf_insert.
  rewrite (conversionsOf_same (ticked w)) by apply deleteFiles_firestore.
  reflexivity.
Qed.

Lemma deleted_record_not_listed_witness :
  exists n conversions,
    fst (getConversionsRoute calmEnv (lit "u1")
           (snd (deleteConversionRoute calmEnv (lit "u1") (lit "c1")
                   fullRecordWorld)))
      = resJson (ConversionsJson true n conversions)
    /\ forall c, In c conversions -> id_ c <> Some (lit "c1").
Proof.
  apply (deleted_record_not_listed calmEnv (lit "u1") (lit "c1")
           fullRecordWorld).
  - reflexivity.
  - reflexivity.
  - exact (storeWf_same orphanedRecordWorld fullRecordWorld eq_refl
             storeWf_orphanedRecordWorld).
  - rewrite deleteConversionRoute_run by reflexivity.
    cbn [firestoreFault calmEnv].
    rewrite (find_wf fullRecordWorld (lit "u1") (lit "c1") sampleRecord).
    + reflexivity.
    + exact (storeWf_same orphanedRecordWorld fullRecordWorld eq_refl
               storeWf_orphanedRecordWorld).
    + vm_compute. reflexivity.
  - reflexivity.
Defined.

(** X22. When the extraction of an accepted upload fails (pdf-parse rejects
    the bytes), the answer is 500 "Conversion failed" with the parser's
    message, and nothing has been stored: the original is uploaded only
    after the extraction. *)
Theorem convert_extraction_failure (E : Env) (w : World)
    (req : ConvertRequest) (f : FilePart) (e : JsError) :
  uploadSingle req = inr req ->
  file req = Some f ->
  truthyOpt (body_userId req) = true ->
  pdf E (buffer f) = inl e ->
  mimetype f = lit "application/pdf" ->
  sent (fst (postConvert E req w))
    = statusJson 500%N
        (ErrorJson (lit "Conversion failed") (Some (message e)))
  /\ snd (postConvert E req w) = w.
Proof.
  intros Hup Hf Hu Hpdf Hty.
  destruct (postConvert_accepted E req w Hup) as [-> ->].
  assert (Hext : extractTextFromBuffer E (buffer f) (mimetype f) w
                 = (inl e, w)).
  { unfold extractTextFromBuffer. rewrite rethrow_id, Hty, Hpdf.
    reflexivity. }
  unfold respond, convertTry. rewrite Hu. change (negb true) with false.
  cbv iota.
  erewrite bind_inl; [split; reflexivity|].
  unfold acquireText. rewrite Hf.
  erewrite bind_inl by exact Hext. reflexivity.
Qed.

Lemma convert_extraction_failure_witness :
  sent (fst (postConvert brokenPdfEnv pdfFileRequest emptyWorld))
    = statusJson 500%N
        (ErrorJson (lit "Conversion failed")
           (Some (message (Error (lit "Invalid PDF structure")))))
  /\ snd (postConvert brokenPdfEnv pdfFileRequest emptyWorld) = emptyWorld.
Proof.
  apply (convert_extraction_failure brokenPdfEnv emptyWorld pdfFileRequest
           {| mimetype := lit "application/pdf";
              originalname := lit "paper.pdf";
              buffer := [x25; x50; x44; x46] |}); reflexivity.
Defined.
